(** * bellglen.py: a task list behind two versioned endpoint families

    A shallow embedding of [src/bellglen.py].  The module keeps one global
    list [tasks_data] of task dictionaries; the v1 handlers read and mutate
    it, the v2 handlers run [validate_api_key] first and then call the v1
    handler.  Handlers are written in a small state-and-exception monad over
    the list, so that the store left behind by a raised [HTTPException] is
    the store at the moment of the raise.

    Calls to [logger] write to the logging subsystem only and never touch
    [tasks_data]; they are left out of the model. *)

From Stdlib Require Import ZArith String List Lia.
From stdpp Require Import base decidable option list strings pretty.

Local Open Scope string_scope.
Local Open Scope list_scope.
Local Open Scope Z_scope.

(** ** Data *)

(** A task dictionary: keys ["Id"], ["Title"], ["Description"], ["done"]. *)
Record Task : Type := mkTask {
  Id : Z;
  Title : string;
  Description : option string;
  done : bool
}.

#[global] Instance Task_eq_dec : EqDecision Task.
Proof. solve_decision. Defined.

(** The request body models.  A JSON body is read as the three members it
    may carry, [None] standing for a member the body does not have;
    [validate] follows the [Field] declarations. *)
Module NewTask.
Record t : Type := mk {
  Title : string;
  Description : option string;
  done : bool
}.

Record body : Type := mkBody {
  b_Title : option string;
  b_Description : option string;
  b_done : option bool
}.

(** [Title: str = Field(..., min_length=1)], [Description] defaults to
    [None], [done] defaults to [False]. *)
Definition validate (b : body) : option t :=
  match b_Title b with
  | None => None
  | Some s =>
      if (1 <=? String.length s)%nat
      then Some (mk s (b_Description b) (default false (b_done b)))
      else None
  end.
End NewTask.

Module UpdateTask.
Record t : Type := mk {
  Title : option string;
  Description : option string;
  done : option bool
}.

(** All three fields are [Optional] with default [None], so the body as
    sent is already of the model's shape.
    [Title: Optional[str] = Field(None, min_length=1)]: an absent title
    is accepted, a present one must be non-empty. *)
Definition validate (b : t) : option t :=
  match Title b with
  | Some s => if (1 <=? String.length s)%nat then Some b else None
  | None => Some b
  end.
End UpdateTask.

(** What a handler can raise.  [RequestValidationError] is the framework's
    rejection of a body (status 422); [ValueError] is what [list.remove]
    raises when the element is absent. *)
Record HTTPException : Type := mkHTTPException {
  status_code : Z;
  detail : string
}.

Inductive Exn : Type :=
| HTTPError (e : HTTPException)
| RequestValidationError
| ValueError.

(** The dictionaries the handlers return. *)
Inductive Response : Type :=
| RespTask (Status : string) (task : Task)
| RespTaskAdded (Status : string) (task : Task)
| RespMessage (Status : string) (Message : string).

#[global] Instance HTTPException_eq_dec : EqDecision HTTPException.
Proof. solve_decision. Defined.
#[global] Instance Exn_eq_dec : EqDecision Exn.
Proof. solve_decision. Defined.
#[global] Instance Response_eq_dec : EqDecision Response.
Proof. solve_decision. Defined.

(** ** The store and the handler monad *)

Abbreviation Store := (list Task).

(** [tasks_data] as the module initialises it. *)
Definition tasks_data : Store :=
  [ mkTask 1 "Complete Lab Activity" (Some "Finish Lab Activity 2") false ].

Definition M (A : Type) : Type := Store -> (Exn + A) * Store.

Definition ret {A} (a : A) : M A := fun s => (inr a, s).

Definition bind {A B} (m : M A) (k : A -> M B) : M B :=
  fun s =>
    match m s with
    | (inl e, s') => (inl e, s')
    | (inr a, s') => k a s'
    end.

Definition raise {A} (e : Exn) : M A := fun s => (inl e, s).
Definition get_store : M Store := fun s => (inr s, s).
Definition put_store (s' : Store) : M unit := fun _ => (inr tt, s').

Declare Scope handler_scope.
Delimit Scope handler_scope with handler.
Notation "'let*' x ':=' m 'in' k" := (bind m (fun x => k))
  (at level 10, x name, m at level 100, k at level 200,
   only parsing) : handler_scope.
Local Open Scope handler_scope.

(** ** Helpers on the list *)

(** [next((task for task in tasks_data if task["Id"] == task_id), None)]:
    the first dictionary whose ["Id"] matches.  The result is a reference
    into the list, modelled as the position of the dictionary together with
    its contents at the time of the scan. *)
Definition get_task_by_id (task_id : Z) : M (option (nat * Task)) :=
  let* s := get_store in
  ret (list_find (fun t => Id t = task_id) s).

(** Python's [list.remove(x)]: drops the first element equal to [x]
    (dictionary equality is by contents); [None] stands for the
    [ValueError] raised when there is none. *)
Fixpoint list_remove (x : Task) (l : list Task) : option (list Task) :=
  match l with
  | [] => None
  | y :: l' =>
      if decide (y = x) then Some l'
      else match list_remove x l' with
           | Some r => Some (y :: r)
           | None => None
           end
  end.

(** [task[key] = v] through a reference obtained from [get_task_by_id]. *)
Definition set_Title (v : string) (t : Task) : Task :=
  mkTask (Id t) v (Description t) (done t).
Definition set_Description (v : string) (t : Task) : Task :=
  mkTask (Id t) (Title t) (Some v) (done t).
Definition set_done (v : bool) (t : Task) : Task :=
  mkTask (Id t) (Title t) (Description t) v.

Definition setitem (ref : nat) (f : Task -> Task) : M unit :=
  let* s := get_store in
  put_store (alter f ref s).

Definition when_some {A} (o : option A) (k : A -> M unit) : M unit :=
  match o with
  | Some v => k v
  | None => ret tt
  end.

Definition invalid_id : Exn :=
  HTTPError (mkHTTPException 400 "Task ID must be a positive integer").

Definition not_found (task_id : Z) : Exn :=
  HTTPError (mkHTTPException 404
    ("Task with ID " +:+ pretty task_id +:+ " not found")).

Definition unauthorized : Exn :=
  HTTPError (mkHTTPException 401 "Unauthorized").

(** What the framework raises when reading the body fails with anything
    but a JSON decoding error. *)
Definition body_error : Exn :=
  HTTPError (mkHTTPException 400 "There was an error parsing the body").

(** ** Version 1 handlers *)

Definition read_task_v1 (task_id : Z) : M Response :=
  if task_id <=? 0 then raise invalid_id
  else
    let* task := get_task_by_id task_id in
    match task with
    | None => raise (not_found task_id)
    | Some (_, t) => ret (RespTask "Success" t)
    end.

Definition add_task_v1 (new_task : NewTask.t) : M Response :=
  let* s := get_store in
  let new_id := Z.of_nat (List.length s) + 1 in
  let task_to_add :=
    mkTask new_id (NewTask.Title new_task) (NewTask.Description new_task)
           (NewTask.done new_task) in
  let* _ := put_store (s ++ [task_to_add]) in
  ret (RespTaskAdded "Success" task_to_add).

Definition modify_task_v1 (task_id : Z) (updated_task : UpdateTask.t)
  : M Response :=
  if task_id <=? 0 then raise invalid_id
  else
    let* task := get_task_by_id task_id in
    match task with
    | None => raise (not_found task_id)
    | Some (ref, _) =>
        let* _ := when_some (UpdateTask.Title updated_task)
                    (fun v => setitem ref (set_Title v)) in
        let* _ := when_some (UpdateTask.Description updated_task)
                    (fun v => setitem ref (set_Description v)) in
        let* _ := when_some (UpdateTask.done updated_task)
                    (fun v => setitem ref (set_done v)) in
        ret (RespMessage "Success" "Task Updated Successfully")
    end.

Definition remove_task_v1 (task_id : Z) : M Response :=
  if task_id <=? 0 then raise invalid_id
  else
    let* task := get_task_by_id task_id in
    match task with
    | None => raise (not_found task_id)
    | Some (_, t) =>
        let* s := get_store in
        match list_remove t s with
        | None => raise ValueError
        | Some s' =>
            let* _ := put_store s' in
            ret (RespMessage "Success"
                   ("Task with ID " +:+ pretty task_id +:+ " deleted"))
        end
    end.

(** ** Version 2 handlers *)

(** Each one calls the version 1 handler; the key check is attached to the
    route, not to the function body. *)
Definition read_task_v2 (task_id : Z) : M Response :=
  read_task_v1 task_id.

Definition add_task_v2 (new_task : NewTask.t) : M Response :=
  add_task_v1 new_task.

Definition modify_task_v2 (task_id : Z) (updated_task : UpdateTask.t)
  : M Response :=
  modify_task_v1 task_id updated_task.

Definition remove_task_v2 (task_id : Z) : M Response :=
  remove_task_v1 task_id.

(** ** The API key dependency and the routes *)

Section Versioned.

(** [API_KEY = os.getenv("LAB4_API_KEY")]: read once at import, [None]
    when the variable is not set. *)
Variable API_KEY : option string.

(** [api_key_header = APIKeyHeader(name=API_KEY_NAME, auto_error=False)]
    applied to a request, given the [GLEN_LAB4_api_key] header of the
    request ([None] when it has none).  The library's [check_api_key]
    tests [if not api_key] and, with [auto_error=False], returns [None]
    there: a missing header and a header with an empty value are both
    handed over as [None], any other value as it is. *)
Definition api_key_header (header : option string) : option string :=
  match header with
  | Some EmptyString => None
  | _ => header
  end.

(** The argument is what [Depends(api_key_header)] hands over. *)
Definition validate_api_key (api_key : option string) : M unit :=
  if decide (api_key <> API_KEY) then raise unauthorized
  else ret tt.

(** Why the framework ends a request without calling the handler, for a
    request that cannot be written with a path id and a body of the
    model class.
    - [BodyNotJSON], [BodyNotParsed]: a POST or PATCH whose body bytes
      cannot be read, with a JSON decoding error (422) or with any other
      error (400).  The body is read before the dependencies are solved.
    - [ArgumentsInvalid]: the path id is not an integer, or the body of
      a POST or PATCH is missing, is not a JSON object, or has a member
      whose value the declared type does not take.  The arguments are
      validated after the dependencies are solved. *)
Inductive Refusal : Type :=
| BodyNotJSON
| BodyNotParsed
| ArgumentsInvalid.

Definition before_dependencies (why : Refusal) : bool :=
  match why with
  | BodyNotJSON | BodyNotParsed => true
  | ArgumentsInvalid => false
  end.

(** A request to one of the eight routes: the route it matches, for the
    v2 routes the [GLEN_LAB4_api_key] header ([None] when missing), the
    path id and the body.

    [POST_v1 b] and [POST_v2 h b] carry a JSON object read member by
    member as the model class reads it: [b_Title] and [b_done] are [None]
    when the member is absent (a null there does not fit [str] and
    [bool], that request is [ArgumentsInvalid]); [b_Description] is
    [None] when the member is absent or null.  The body of a PATCH has
    [None] for a member that is absent or null.  Every other request to
    these routes is a [REFUSED] one. *)
Inductive Request : Type :=
| GET_v1 (task_id : Z)
| POST_v1 (b : NewTask.body)
| PATCH_v1 (task_id : Z) (b : UpdateTask.t)
| DELETE_v1 (task_id : Z)
| GET_v2 (header : option string) (task_id : Z)
| POST_v2 (header : option string) (b : NewTask.body)
| PATCH_v2 (header : option string) (task_id : Z) (b : UpdateTask.t)
| DELETE_v2 (header : option string) (task_id : Z)
| REFUSED_v1 (why : Refusal)
| REFUSED_v2 (header : option string) (why : Refusal).

Definition refuse (why : Refusal) : M Response :=
  match why with
  | BodyNotParsed => raise body_error
  | BodyNotJSON | ArgumentsInvalid => raise RequestValidationError
  end.

Definition parse_NewTask (b : NewTask.body) : M NewTask.t :=
  match NewTask.validate b with
  | Some nt => ret nt
  | None => raise RequestValidationError
  end.

Definition parse_UpdateTask (b : UpdateTask.t) : M UpdateTask.t :=
  match UpdateTask.validate b with
  | Some u => ret u
  | None => raise RequestValidationError
  end.

(** The body, where the route takes one, is read first; then the route's
    dependencies are solved (the key check of the v2 routes); then the
    arguments are validated; then the handler runs. *)
Definition app (r : Request) : M Response :=
  match r with
  | GET_v1 i => read_task_v1 i
  | POST_v1 b => let* nt := parse_NewTask b in add_task_v1 nt
  | PATCH_v1 i b => let* u := parse_UpdateTask b in modify_task_v1 i u
  | DELETE_v1 i => remove_task_v1 i
  | GET_v2 h i =>
      let* _ := validate_api_key (api_key_header h) in
      read_task_v2 i
  | POST_v2 h b =>
      let* _ := validate_api_key (api_key_header h) in
      let* nt := parse_NewTask b in
      add_task_v2 nt
  | PATCH_v2 h i b =>
      let* _ := validate_api_key (api_key_header h) in
      let* u := parse_UpdateTask b in
      modify_task_v2 i u
  | DELETE_v2 h i =>
      let* _ := validate_api_key (api_key_header h) in
      remove_task_v2 i
  | REFUSED_v1 why => refuse why
  | REFUSED_v2 h why =>
      if before_dependencies why then refuse why
      else let* _ := validate_api_key (api_key_header h) in refuse why
  end.

(** The status line of the reply: the decorator's [status_code] on
    success (200 unless stated), the exception's own otherwise; an
    exception that is not an HTTP one surfaces as 500. *)
Definition success_code (r : Request) : Z :=
  match r with
  | POST_v1 _ | POST_v2 _ _ => 201
  | _ => 200
  end.

Definition http_status (r : Request) (res : Exn + Response) : Z :=
  match res with
  | inr _ => success_code r
  | inl (HTTPError e) => status_code e
  | inl RequestValidationError => 422
  | inl ValueError => 500
  end.

(** What the client sees and what the store becomes. *)
Definition reply (r : Request) (s : Store)
  : Z * (Exn + Response) * Store :=
  let '(res, s') := app r s in (http_status r res, res, s').

(** Serving a sequence of requests one after the other. *)
Fixpoint serve (rs : list Request) (s : Store) : Store :=
  match rs with
  | [] => s
  | r :: rs' => serve rs' (snd (app r s))
  end.

End Versioned.

(** ** Vocabulary of the properties *)

Implicit Types (s : Store) (t : Task) (task_id : Z) (n : nat).
Implicit Types (API_KEY api_key : option string) (u : UpdateTask.t).

(** The ["Id"] column of the store, in list order. *)
Definition ids (s : Store) : list Z := Id <$> s.

(** The three conditional assignments of [modify_task_v1], as one function
    on the dictionary they are applied to. *)
Definition apply_update u t : Task :=
  mkTask (Id t)
         (default (Title t) (UpdateTask.Title u))
         (match UpdateTask.Description u with
          | Some d => Some d
          | None => Description t
          end)
         (default (done t) (UpdateTask.done u)).

(** A run that ends in an exception, with the store it started from, and
    with one of the four statuses the service uses for a rejected request. *)
Definition rejected {A} (m : M A) s : Prop :=
  exists e, m s = (inl e, s) /\
    (e = invalid_id \/ (exists task_id, e = not_found task_id) \/
     e = RequestValidationError \/ e = unauthorized \/ e = body_error).

Definition accepted {A} (m : M A) s : Prop :=
  exists a s', m s = (inr a, s').

(** A v2 route whose key check passes behaves as the v1 route. *)
Definition v1_of (r : Request) : Request :=
  match r with
  | GET_v2 _ i => GET_v1 i
  | POST_v2 _ b => POST_v1 b
  | PATCH_v2 _ i b => PATCH_v1 i b
  | DELETE_v2 _ i => DELETE_v1 i
  | REFUSED_v2 _ why => REFUSED_v1 why
  | _ => r
  end.

(** The key header of a v2 request, as sent ([Some None]: a v2 request
    without the header; [None]: a v1 request). *)
Definition supplied_key (r : Request) : option (option string) :=
  match r with
  | GET_v2 h _ | POST_v2 h _ | PATCH_v2 h _ _ | DELETE_v2 h _
  | REFUSED_v2 h _ => Some h
  | _ => None
  end.

(** The request ends while its body is read, before any dependency. *)
Definition body_unreadable (r : Request) : bool :=
  match r with
  | REFUSED_v1 why | REFUSED_v2 _ why => before_dependencies why
  | _ => false
  end.

(** The value [validate_api_key] is called with, when it is called. *)
Definition checked_key (r : Request) : option (option string) :=
  match supplied_key r with
  | Some h => if body_unreadable r then None else Some (api_key_header h)
  | None => None
  end.

Definition is_create (r : Request) : bool :=
  match r with
  | POST_v1 _ | POST_v2 _ _ => true
  | _ => false
  end.

Definition is_delete (r : Request) : bool :=
  match r with
  | DELETE_v1 _ | DELETE_v2 _ _ => true
  | _ => false
  end.

(** The ids are [1 .. size], in order. *)
Definition dense (s : Store) : Prop :=
  ids s = Z.of_nat <$> seq 1 (List.length s).

(** What one request can do to the id column: nothing, append
    [size + 1] (a create), or drop one entry (a delete). *)
Definition id_effect (r : Request) (s s' : Store) : Prop :=
  (ids s' = ids s /\ List.length s' = List.length s) \/
  (is_create r = true /\
   ids s' = ids s ++ [Z.of_nat (List.length s) + 1] /\
   List.length s' = S (List.length s)) \/
  (is_delete r = true /\ exists n, ids s' = delete n (ids s)).

(** The task a lookup by id lands on: the first one carrying the id. *)
Definition first_with_id (task_id : Z) (s : Store) : option Task :=
  snd <$> list_find (fun t => Id t = task_id) s.

(** A task as the data model wants it: a positive Id, a non-empty Title. *)
Definition well_formed (t : Task) : Prop :=
  0 < Id t /\ Title t <> "".


(** * Properties *)

(** ** The scan and the removal *)

Lemma get_task_by_id_run task_id s :
  get_task_by_id task_id s = (inr (list_find (fun t => Id t = task_id) s), s).
Proof. reflexivity. Qed.

(** No dictionary before the one found carries the same ["Id"], so none
    before it is equal to it: [list.remove] drops exactly the one found. *)
Lemma list_remove_found task_id s n t :
  list_find (fun t => Id t = task_id) s = Some (n, t) ->
  list_remove t s = Some (delete n s).
Proof.
  revert n. induction s as [|y s IH]; intros n Hfind; [discriminate|].
  cbn in Hfind. destruct (decide (Id y = task_id)) as [Hy|Hy].
  - injection Hfind as <- <-. cbn.
    destruct (decide (y = y)); [reflexivity|congruence].
  - destruct (list_find _ s) as [[m x]|] eqn:Hs; [|discriminate].
    injection Hfind as <- <-. cbn.
    assert (Hx : Id x = task_id).
    { apply list_find_Some in Hs. tauto. }
    destruct (decide (y = x)) as [->|_]; [contradiction|].
    now rewrite (IH m eq_refl).
Qed.

Lemma list_find_lookup task_id s n t :
  list_find (fun t => Id t = task_id) s = Some (n, t) ->
  s !! n = Some t /\ Id t = task_id.
Proof. intros H. apply list_find_Some in H. tauto. Qed.

Lemma list_find_ids_None task_id s :
  list_find (fun t => Id t = task_id) s = None <-> task_id ∉ ids s.
Proof.
  rewrite list_find_None, Forall_forall. unfold ids.
  rewrite list_elem_of_fmap. split.
  - intros H (t & Ht & Hin). now apply (H t).
  - intros H t Hin Ht. apply H. now exists t.
Qed.

(** ** What each handler computes *)

Lemma read_task_v1_invalid task_id s :
  task_id <= 0 -> read_task_v1 task_id s = (inl invalid_id, s).
Proof.
  intros H. unfold read_task_v1.
  now rewrite (proj2 (Z.leb_le task_id 0) H).
Qed.

Lemma read_task_v1_found task_id s n t :
  0 < task_id ->
  list_find (fun t => Id t = task_id) s = Some (n, t) ->
  read_task_v1 task_id s = (inr (RespTask "Success" t), s).
Proof.
  intros Hpos Hfind. unfold read_task_v1.
  rewrite (proj2 (Z.leb_gt task_id 0) Hpos).
  unfold bind. now rewrite get_task_by_id_run, Hfind.
Qed.

Lemma read_task_v1_missing task_id s :
  0 < task_id ->
  list_find (fun t => Id t = task_id) s = None ->
  read_task_v1 task_id s = (inl (not_found task_id), s).
Proof.
  intros Hpos Hfind. unfold read_task_v1.
  rewrite (proj2 (Z.leb_gt task_id 0) Hpos).
  unfold bind. now rewrite get_task_by_id_run, Hfind.
Qed.

Lemma add_task_v1_run (new_task : NewTask.t) s :
  add_task_v1 new_task s =
  let task_to_add :=
    mkTask (Z.of_nat (List.length s) + 1) (NewTask.Title new_task)
           (NewTask.Description new_task) (NewTask.done new_task) in
  (inr (RespTaskAdded "Success" task_to_add), s ++ [task_to_add]).
Proof. reflexivity. Qed.

Lemma modify_task_v1_invalid task_id u s :
  task_id <= 0 -> modify_task_v1 task_id u s = (inl invalid_id, s).
Proof.
  intros H. unfold modify_task_v1.
  now rewrite (proj2 (Z.leb_le task_id 0) H).
Qed.

Lemma modify_task_v1_missing task_id u s :
  0 < task_id ->
  list_find (fun t => Id t = task_id) s = None ->
  modify_task_v1 task_id u s = (inl (not_found task_id), s).
Proof.
  intros Hpos Hfind. unfold modify_task_v1.
  rewrite (proj2 (Z.leb_gt task_id 0) Hpos).
  unfold bind. now rewrite get_task_by_id_run, Hfind.
Qed.

Lemma modify_task_v1_found task_id u s n t :
  0 < task_id ->
  list_find (fun t => Id t = task_id) s = Some (n, t) ->
  modify_task_v1 task_id u s =
  (inr (RespMessage "Success" "Task Updated Successfully"),
   <[n := apply_update u t]> s).
Proof.
  intros Hpos Hfind. unfold modify_task_v1.
  rewrite (proj2 (Z.leb_gt task_id 0) Hpos).
  unfold bind at 1. rewrite get_task_by_id_run, Hfind.
  apply list_find_lookup in Hfind as [Hn _].
  assert (Hlt : (n < List.length s)%nat)
    by (eapply lookup_lt_Some; eassumption).
  destruct u as [[ti|] [de|] [dn|]]; cbn;
    f_equal; apply list_eq; intros j;
    destruct (decide (j = n)) as [->|Hj];
    repeat first
      [ rewrite list_lookup_insert_eq by (rewrite ?length_alter; assumption)
      | rewrite list_lookup_insert_ne by congruence
      | rewrite list_lookup_alter_eq
      | rewrite list_lookup_alter_ne by congruence ];
    rewrite ?Hn; cbn; try reflexivity;
    destruct t; reflexivity.
Qed.

Lemma remove_task_v1_invalid task_id s :
  task_id <= 0 -> remove_task_v1 task_id s = (inl invalid_id, s).
Proof.
  intros H. unfold remove_task_v1.
  now rewrite (proj2 (Z.leb_le task_id 0) H).
Qed.

Lemma remove_task_v1_missing task_id s :
  0 < task_id ->
  list_find (fun t => Id t = task_id) s = None ->
  remove_task_v1 task_id s = (inl (not_found task_id), s).
Proof.
  intros Hpos Hfind. unfold remove_task_v1.
  rewrite (proj2 (Z.leb_gt task_id 0) Hpos).
  unfold bind. now rewrite get_task_by_id_run, Hfind.
Qed.

Lemma remove_task_v1_found task_id s n t :
  0 < task_id ->
  list_find (fun t => Id t = task_id) s = Some (n, t) ->
  remove_task_v1 task_id s =
  (inr (RespMessage "Success"
          ("Task with ID " +:+ pretty task_id +:+ " deleted")),
   delete n s).
Proof.
  intros Hpos Hfind. unfold remove_task_v1.
  rewrite (proj2 (Z.leb_gt task_id 0) Hpos).
  unfold bind at 1. rewrite get_task_by_id_run, Hfind.
  unfold bind, get_store.
  now rewrite (list_remove_found _ _ _ _ Hfind).
Qed.

(** ** Failure leaves the store alone *)

Ltac split_on_scan task_id s :=
  let Hle := fresh "Hle" in
  let Hfind := fresh "Hfind" in
  destruct (Z_le_gt_dec task_id 0) as [Hle|Hle];
  [| apply Z.gt_lt in Hle;
     destruct (list_find (fun t => Id t = task_id) s) as [[? ?]|] eqn:Hfind ].

Ltac reject_by H :=
  left; eexists; split; [apply H; assumption | eauto 6].

Ltac accept_by H :=
  right; do 2 eexists; eapply H; eassumption.

Lemma read_task_v1_outcome task_id s :
  rejected (read_task_v1 task_id) s \/ accepted (read_task_v1 task_id) s.
Proof.
  split_on_scan task_id s.
  - reject_by read_task_v1_invalid.
  - accept_by read_task_v1_found.
  - reject_by read_task_v1_missing.
Qed.

Lemma modify_task_v1_outcome task_id u s :
  rejected (modify_task_v1 task_id u) s \/
  accepted (modify_task_v1 task_id u) s.
Proof.
  split_on_scan task_id s.
  - reject_by modify_task_v1_invalid.
  - accept_by modify_task_v1_found.
  - reject_by modify_task_v1_missing.
Qed.

Lemma remove_task_v1_outcome task_id s :
  rejected (remove_task_v1 task_id) s \/ accepted (remove_task_v1 task_id) s.
Proof.
  split_on_scan task_id s.
  - reject_by remove_task_v1_invalid.
  - accept_by remove_task_v1_found.
  - reject_by remove_task_v1_missing.
Qed.

Lemma add_task_v1_outcome (new_task : NewTask.t) s :
  accepted (add_task_v1 new_task) s.
Proof. do 2 eexists. apply add_task_v1_run. Qed.

(** Sequencing: a rejected first step rejects the whole, and a step that
    returns without touching the store hands the decision to the rest. *)
Lemma bind_rejected {A B} (m : M A) (k : A -> M B) s :
  rejected m s -> rejected (bind m k) s.
Proof.
  intros (e & Hm & He). exists e. split; [|assumption].
  unfold bind. now rewrite Hm.
Qed.

Lemma bind_pure_outcome {A B} (m : M A) (k : A -> M B) s a :
  m s = (inr a, s) ->
  rejected (k a) s \/ accepted (k a) s ->
  rejected (bind m k) s \/ accepted (bind m k) s.
Proof.
  intros Hm [(e & Hk & He)|(b & s' & Hk)].
  - left. exists e. split; [|assumption]. unfold bind. now rewrite Hm.
  - right. exists b, s'. unfold bind. now rewrite Hm.
Qed.

Lemma validate_api_key_outcome API_KEY api_key s :
  (api_key <> API_KEY /\
   validate_api_key API_KEY api_key s = (inl unauthorized, s)) \/
  (api_key = API_KEY /\ validate_api_key API_KEY api_key s = (inr tt, s)).
Proof.
  unfold validate_api_key.
  destruct (decide (api_key <> API_KEY)) as [Hne|Heq]; [now left|].
  right. split; [|reflexivity].
  destruct (decide (api_key = API_KEY)); [assumption|contradiction].
Qed.

Lemma parse_NewTask_outcome (b : NewTask.body) s :
  parse_NewTask b s = (inl RequestValidationError, s) \/
  exists nt, NewTask.validate b = Some nt /\ parse_NewTask b s = (inr nt, s).
Proof.
  unfold parse_NewTask. destruct (NewTask.validate b) as [nt|]; eauto.
Qed.

Lemma parse_UpdateTask_outcome (b : UpdateTask.t) s :
  parse_UpdateTask b s = (inl RequestValidationError, s) \/
  exists u, UpdateTask.validate b = Some u /\
            parse_UpdateTask b s = (inr u, s).
Proof.
  unfold parse_UpdateTask. destruct (UpdateTask.validate b) as [u|]; eauto.
Qed.

Lemma refuse_rejected (why : Refusal) s : rejected (refuse why) s.
Proof.
  destruct why; eexists; (split; [reflexivity|]); auto 7.
Qed.

Lemma app_outcome API_KEY (r : Request) s :
  rejected (app API_KEY r) s \/ accepted (app API_KEY r) s.
Proof.
  assert (Hkey : forall api_key (m : M Response),
             rejected m s \/ accepted m s ->
             rejected (bind (validate_api_key API_KEY api_key) (fun _ => m)) s
             \/ accepted
                  (bind (validate_api_key API_KEY api_key) (fun _ => m)) s).
  { intros api_key m Hm.
    destruct (validate_api_key_outcome API_KEY api_key s) as [[_ Hv]|[_ Hv]].
    - left. apply bind_rejected. exists unauthorized. auto 6.
    - now apply (bind_pure_outcome _ _ _ tt). }
  assert (Hnew : forall b,
             rejected (bind (parse_NewTask b) add_task_v1) s \/
             accepted (bind (parse_NewTask b) add_task_v1) s).
  { intros b. destruct (parse_NewTask_outcome b s) as [Hp|(nt & _ & Hp)].
    - left. apply bind_rejected. exists RequestValidationError. auto 6.
    - apply (bind_pure_outcome _ _ _ nt Hp). right.
      apply add_task_v1_outcome. }
  assert (Hupd : forall task_id b,
             rejected (bind (parse_UpdateTask b) (modify_task_v1 task_id)) s
             \/ accepted
                  (bind (parse_UpdateTask b) (modify_task_v1 task_id)) s).
  { intros task_id b.
    destruct (parse_UpdateTask_outcome b s) as [Hp|(u & _ & Hp)].
    - left. apply bind_rejected. exists RequestValidationError. auto 6.
    - apply (bind_pure_outcome _ _ _ u Hp). apply modify_task_v1_outcome. }
  destruct r as [| | | | | | | |why|h why]; cbn [app];
    unfold read_task_v2, add_task_v2, modify_task_v2, remove_task_v2;
    try destruct (before_dependencies why);
    auto using read_task_v1_outcome, remove_task_v1_outcome,
               refuse_rejected.
Qed.

(** C9: whenever a request is answered with an error, the store after the
    request is the store before it, and the error is one of the four the
    service reports: 400 (invalid id), 404 (not found), 422 (validation)
    or 401 (unauthorized).  This holds for every route of both versions
    and every store. *)
Theorem failure_leaves_store_unchanged API_KEY (r : Request) s
    (e : Exn) (s' : list Task) :
  app API_KEY r s = (inl e, s') ->
  s' = s /\ In (http_status r (inl e)) [400; 404; 422; 401].
Proof.
  intros Hrun.
  destruct (app_outcome API_KEY r s) as [(e0 & He0 & Hkind)|(a & s0 & Ha)];
    [|congruence].
  rewrite He0 in Hrun. injection Hrun as <- <-. split; [reflexivity|].
  destruct Hkind as [->|[[task_id ->]|[->|[->| ->]]]]; cbn; tauto.
Qed.

Lemma failure_leaves_store_unchanged_witness :
  (tasks_data = tasks_data /\
   In (http_status (PATCH_v1 7 (UpdateTask.mk None None (Some true)))
         (inl (not_found 7)))
      [400; 404; 422; 401]).
Proof.
  apply (failure_leaves_store_unchanged None
           (PATCH_v1 7 (UpdateTask.mk None None (Some true))) tasks_data).
  reflexivity.
Defined.

(** ** Creating a task *)

Lemma nonempty_min_length (title : string) :
  title <> "" -> (1 <=? String.length title)%nat = true.
Proof. destruct title; [congruence|reflexivity]. Qed.

Lemma post_v1_run API_KEY (b : NewTask.body) (title : string) s :
  NewTask.b_Title b = Some title ->
  title <> "" ->
  let task_to_add :=
    mkTask (Z.of_nat (List.length s) + 1) title (NewTask.b_Description b)
           (default false (NewTask.b_done b)) in
  reply API_KEY (POST_v1 b) s =
    (201, inr (RespTaskAdded "Success" task_to_add), s ++ [task_to_add]).
Proof.
  intros Htitle Hne. cbv zeta.
  unfold reply, app, bind, parse_NewTask, NewTask.validate.
  rewrite Htitle, (nonempty_min_length _ Hne).
  cbn [ret]. rewrite add_task_v1_run. reflexivity.
Qed.

(** C3: for every store and every create body with a non-empty title,
    CreateTask gives the new task the Id [size of the store + 1], appends
    it at the end of the store and returns it with status 201; the Id
    returned equals the size of the store right after the insertion. *)
Theorem create_assigns_size_plus_one API_KEY (b : NewTask.body)
    (title : string) s :
  NewTask.b_Title b = Some title ->
  title <> "" ->
  let task_to_add :=
    mkTask (Z.of_nat (List.length s) + 1) title (NewTask.b_Description b)
           (default false (NewTask.b_done b)) in
  reply API_KEY (POST_v1 b) s =
    (201, inr (RespTaskAdded "Success" task_to_add), s ++ [task_to_add]) /\
  Id task_to_add = Z.of_nat (List.length (s ++ [task_to_add])).
Proof.
  intros Htitle Hne. cbv zeta. split.
  - now apply post_v1_run.
  - cbn [Id]. rewrite length_app. cbn [List.length]. lia.
Qed.

Lemma create_assigns_size_plus_one_witness :
  reply None (POST_v1 (NewTask.mkBody (Some "Write spec") None None))
        tasks_data =
    (201,
     inr (RespTaskAdded "Success" (mkTask 2 "Write spec" None false)),
     tasks_data ++ [mkTask 2 "Write spec" None false]) /\
  Id (mkTask 2 "Write spec" None false) =
    Z.of_nat (List.length (tasks_data ++ [mkTask 2 "Write spec" None false])).
Proof.
  apply (create_assigns_size_plus_one None
           (NewTask.mkBody (Some "Write spec") None None)
           "Write spec" tasks_data).
  - reflexivity.
  - discriminate.
Defined.

(** ** Updating a task *)

(** C5: when the store holds a task with the given (positive) id,
    UpdateTask answers success and changes the first task with that id
    and nothing else: each supplied field takes the supplied value (also
    [done = false] and an empty description), each omitted field keeps
    the stored value, the Id stays.  With no field supplied the store is
    unchanged; with only [done = true] supplied, Title and Description
    are unchanged and done is true. *)
Theorem update_applies_supplied_fields task_id u s n t :
  0 < task_id ->
  list_find (fun t => Id t = task_id) s = Some (n, t) ->
  exists s' t',
    modify_task_v1 task_id u s =
      (inr (RespMessage "Success" "Task Updated Successfully"), s') /\
    List.length s' = List.length s /\
    (forall j, j <> n -> s' !! j = s !! j) /\
    s' !! n = Some t' /\
    Id t' = Id t /\
    Title t' = match UpdateTask.Title u with
               | Some v => v
               | None => Title t
               end /\
    Description t' = match UpdateTask.Description u with
                     | Some v => Some v
                     | None => Description t
                     end /\
    done t' = match UpdateTask.done u with
              | Some v => v
              | None => done t
              end /\
    (u = UpdateTask.mk None None None -> s' = s) /\
    (u = UpdateTask.mk None None (Some true) ->
     t' = mkTask (Id t) (Title t) (Description t) true).
Proof.
  intros Hpos Hfind.
  exists (<[n := apply_update u t]> s), (apply_update u t).
  pose proof (list_find_lookup _ _ _ _ Hfind) as [Hn _].
  split; [now apply modify_task_v1_found|].
  split; [apply length_insert|].
  split; [intros j Hj; apply list_lookup_insert_ne; congruence|].
  split.
  { apply list_lookup_insert_eq. eapply lookup_lt_Some; eassumption. }
  destruct u as [ti de dn]; cbn.
  repeat split; try (destruct ti, de, dn; reflexivity).
  - intros [= -> -> ->]. apply list_insert_id. rewrite Hn.
    destruct t; reflexivity.
  - intros [= -> -> ->]. reflexivity.
Qed.

Lemma update_applies_supplied_fields_witness :
  exists s' t',
    modify_task_v1 1 (UpdateTask.mk None None (Some true)) tasks_data =
      (inr (RespMessage "Success" "Task Updated Successfully"), s') /\
    List.length s' = List.length tasks_data /\
    (forall j, j <> 0%nat -> s' !! j = tasks_data !! j) /\
    s' !! 0%nat = Some t' /\
    Id t' = 1 /\
    Title t' = "Complete Lab Activity" /\
    Description t' = Some "Finish Lab Activity 2" /\
    done t' = true /\
    (UpdateTask.mk None None (Some true) = UpdateTask.mk None None None ->
     s' = tasks_data) /\
    (UpdateTask.mk None None (Some true) =
       UpdateTask.mk None None (Some true) ->
     t' = mkTask 1 "Complete Lab Activity"
                 (Some "Finish Lab Activity 2") true).
Proof.
  apply (update_applies_supplied_fields 1
           (UpdateTask.mk None None (Some true)) tasks_data 0
           (mkTask 1 "Complete Lab Activity"
                   (Some "Finish Lab Activity 2") false)).
  - lia.
  - reflexivity.
Defined.

(** ** Non-positive ids *)

(** C6: for every id <= 0 and every store (also one that would hold a
    task with that id), GetTask, UpdateTask and DeleteTask raise the 400
    "Task ID must be a positive integer" error and leave the store as it
    was: the sign of the id is tested before the store is scanned. *)
Theorem nonpositive_id_is_invalid_argument task_id u s :
  task_id <= 0 ->
  read_task_v1 task_id s = (inl invalid_id, s) /\
  modify_task_v1 task_id u s = (inl invalid_id, s) /\
  remove_task_v1 task_id s = (inl invalid_id, s) /\
  invalid_id =
    HTTPError (mkHTTPException 400 "Task ID must be a positive integer").
Proof.
  intros Hle.
  auto using read_task_v1_invalid, modify_task_v1_invalid,
             remove_task_v1_invalid.
Qed.

Lemma nonpositive_id_is_invalid_argument_witness :
  read_task_v1 (-5) tasks_data = (inl invalid_id, tasks_data) /\
  modify_task_v1 (-5) (UpdateTask.mk None None (Some true)) tasks_data =
    (inl invalid_id, tasks_data) /\
  remove_task_v1 (-5) tasks_data = (inl invalid_id, tasks_data) /\
  invalid_id =
    HTTPError (mkHTTPException 400 "Task ID must be a positive integer").
Proof.
  apply (nonpositive_id_is_invalid_argument (-5)
           (UpdateTask.mk None None (Some true)) tasks_data).
  lia.
Defined.

(** GetTask(0), also on a store that holds a task numbered 0. *)
Example read_task_v1_zero :
  reply None (GET_v1 0) [mkTask 0 "zero" None false] =
    (400, inl invalid_id, [mkTask 0 "zero" None false]).
Proof. reflexivity. Qed.

(** ** The key check *)

Lemma validate_api_key_pass API_KEY s :
  validate_api_key API_KEY API_KEY s = (inr tt, s).
Proof.
  destruct (validate_api_key_outcome API_KEY API_KEY s) as [[Hne _]|[_ H]];
    [congruence|assumption].
Qed.

Lemma validate_api_key_fail API_KEY api_key s :
  api_key <> API_KEY ->
  validate_api_key API_KEY api_key s = (inl unauthorized, s).
Proof.
  intros Hne.
  destruct (validate_api_key_outcome API_KEY api_key s) as [[_ H]|[Heq _]];
    [assumption|contradiction].
Qed.

Lemma refuse_run (why : Refusal) s :
  exists e, refuse why s = (inl e, s) /\
            (e = RequestValidationError \/ e = body_error).
Proof. destruct why; eexists; (split; [reflexivity|]); auto. Qed.

Lemma checked_key_spec (r : Request) api_key :
  checked_key r = Some api_key <->
  exists header, supplied_key r = Some header /\
                 body_unreadable r = false /\
                 api_key = api_key_header header.
Proof.
  unfold checked_key. destruct (supplied_key r) as [h|].
  - destruct (body_unreadable r); split.
    + discriminate.
    + intros (header & _ & Hb & _). discriminate.
    + intros [= <-]. eauto.
    + intros (header & [= <-] & _ & ->). reflexivity.
  - split; [discriminate|]. intros (header & Hh & _). discriminate.
Qed.

Lemma app_v2_pass API_KEY (r : Request) s :
  checked_key r = Some API_KEY ->
  reply API_KEY r s = reply API_KEY (v1_of r) s.
Proof.
  unfold checked_key.
  destruct r as [| | | | | | | | |h why]; cbn [supplied_key body_unreadable];
    try discriminate;
    try (destruct (before_dependencies why) eqn:Hwhy; [discriminate|]);
    intros [= Hk];
    unfold reply; cbn [app v1_of]; rewrite ?Hwhy; unfold bind at 1;
    rewrite Hk, validate_api_key_pass; reflexivity.
Qed.

Lemma app_v2_fail API_KEY (r : Request) api_key s :
  checked_key r = Some api_key ->
  api_key <> API_KEY ->
  reply API_KEY r s = (401, inl unauthorized, s).
Proof.
  unfold checked_key.
  destruct r as [| | | | | | | | |h why]; cbn [supplied_key body_unreadable];
    try discriminate;
    try (destruct (before_dependencies why) eqn:Hwhy; [discriminate|]);
    intros [= Hk] Hne;
    unfold reply; cbn [app]; rewrite ?Hwhy; unfold bind at 1;
    rewrite Hk, (validate_api_key_fail _ _ _ Hne); reflexivity.
Qed.

(** A request whose key is never looked at is served as on the v1 side. *)
Lemma app_unchecked API_KEY (r : Request) s :
  checked_key r = None ->
  reply API_KEY r s = reply API_KEY (v1_of r) s.
Proof.
  unfold checked_key.
  destruct r as [| | | | | | | | |h why]; cbn [supplied_key body_unreadable];
    try discriminate; try reflexivity.
  destruct (before_dependencies why) eqn:Hwhy; [|discriminate].
  intros _. unfold reply. cbn [app v1_of]. now rewrite Hwhy.
Qed.

Lemma nonempty_key_handed_over (key : string) :
  key <> "" -> api_key_header (Some key) = Some key.
Proof. destruct key; [congruence|reflexivity]. Qed.

(** C7, as amended: when the request carries the configured API key and
    that key is not the empty string, each v2 route (get, create, update,
    delete) gives the same status, the same body and the same resulting
    store as the v1 route on the same input; so does a request that the
    framework refuses before the handler. *)
Theorem v2_with_correct_key_matches_v1 API_KEY (key : string) task_id
    (nb : NewTask.body) (ub : UpdateTask.t) (why : Refusal) s :
  API_KEY = Some key ->
  key <> "" ->
  reply API_KEY (GET_v2 (Some key) task_id) s =
    reply API_KEY (GET_v1 task_id) s /\
  reply API_KEY (POST_v2 (Some key) nb) s = reply API_KEY (POST_v1 nb) s /\
  reply API_KEY (PATCH_v2 (Some key) task_id ub) s =
    reply API_KEY (PATCH_v1 task_id ub) s /\
  reply API_KEY (DELETE_v2 (Some key) task_id) s =
    reply API_KEY (DELETE_v1 task_id) s /\
  reply API_KEY (REFUSED_v2 (Some key) why) s =
    reply API_KEY (REFUSED_v1 why) s.
Proof.
  intros -> Hkey.
  assert (Hsame : forall r : Request,
             supplied_key r = Some (Some key) ->
             reply (Some key) r s = reply (Some key) (v1_of r) s).
  { intros r Hr. destruct (checked_key r) as [k|] eqn:Hk.
    - apply app_v2_pass. rewrite Hk.
      apply checked_key_spec in Hk as (h & Hh & _ & ->).
      rewrite Hr in Hh. injection Hh as <-.
      now rewrite (nonempty_key_handed_over key Hkey).
    - now apply app_unchecked. }
  repeat split;
    match goal with
    | |- reply _ ?r _ = _ => apply (Hsame r)
    end; reflexivity.
Qed.

Lemma v2_with_correct_key_matches_v1_witness :
  reply (Some "secret") (GET_v2 (Some "secret") 1) tasks_data =
    reply (Some "secret") (GET_v1 1) tasks_data /\
  reply (Some "secret")
        (POST_v2 (Some "secret") (NewTask.mkBody (Some "Write spec") None None))
        tasks_data =
    reply (Some "secret")
          (POST_v1 (NewTask.mkBody (Some "Write spec") None None))
          tasks_data /\
  reply (Some "secret")
        (PATCH_v2 (Some "secret") 1 (UpdateTask.mk None None (Some true)))
        tasks_data =
    reply (Some "secret")
          (PATCH_v1 1 (UpdateTask.mk None None (Some true))) tasks_data /\
  reply (Some "secret") (DELETE_v2 (Some "secret") 1) tasks_data =
    reply (Some "secret") (DELETE_v1 1) tasks_data /\
  reply (Some "secret") (REFUSED_v2 (Some "secret") ArgumentsInvalid)
        tasks_data =
    reply (Some "secret") (REFUSED_v1 ArgumentsInvalid) tasks_data.
Proof.
  apply (v2_with_correct_key_matches_v1 (Some "secret") "secret" 1
           (NewTask.mkBody (Some "Write spec") None None)
           (UpdateTask.mk None None (Some true)) ArgumentsInvalid
           tasks_data).
  - reflexivity.
  - discriminate.
Defined.

(** C7, at the input where it fails: the configured key is the empty
    string and the request carries the header with that same, empty,
    value.  The header is handed over as no key at all, the check turns
    the request away with 401, and the v1 route answers 200. *)
Lemma empty_key_header_is_turned_away :
  reply (Some "") (GET_v2 (Some "") 1) tasks_data =
    (401, inl unauthorized, tasks_data) /\
  reply (Some "") (GET_v2 (Some "") 1) tasks_data <>
    reply (Some "") (GET_v1 1) tasks_data.
Proof. split; [reflexivity|discriminate]. Qed.

(** C10: [validate_api_key] raises the 401 error exactly when the value
    handed over for the header differs from the configured one, and
    returns exactly when they are equal.  With the variable unset and the
    header missing both are [None]: the check passes and every v2 route
    runs the v1 handler. *)
Theorem validate_api_key_raises_iff_differs API_KEY api_key task_id
    (nb : NewTask.body) (ub : UpdateTask.t) s :
  (validate_api_key API_KEY api_key s = (inl unauthorized, s) <->
   api_key <> API_KEY) /\
  (validate_api_key API_KEY api_key s = (inr tt, s) <->
   api_key = API_KEY) /\
  validate_api_key None None s = (inr tt, s) /\
  reply None (GET_v2 None task_id) s = reply None (GET_v1 task_id) s /\
  reply None (POST_v2 None nb) s = reply None (POST_v1 nb) s /\
  reply None (PATCH_v2 None task_id ub) s =
    reply None (PATCH_v1 task_id ub) s /\
  reply None (DELETE_v2 None task_id) s = reply None (DELETE_v1 task_id) s.
Proof.
  split; [|split].
  - split.
    + intros H Heq. subst api_key.
      rewrite validate_api_key_pass in H. discriminate.
    + apply validate_api_key_fail.
  - split.
    + intros H. destruct (decide (api_key = API_KEY)) as [|Hne]; [assumption|].
      rewrite (validate_api_key_fail _ _ _ Hne) in H. discriminate.
    + intros ->. apply validate_api_key_pass.
  - split; [apply validate_api_key_pass|].
    repeat split;
      match goal with
      | |- reply _ ?r _ = _ => apply (app_v2_pass None r s)
      end; reflexivity.
Qed.

(** X15: with a configured key, a v2 request whose key header is
    missing, empty or of another value is turned away with 401 and the
    store is untouched, provided the framework gets as far as the key
    check.  It does not when the body of a POST or PATCH cannot be read:
    that request ends before, with 422 or 400, the store untouched too. *)
Lemma v2_rejects_bad_key_when_configured (key : string) (r : Request)
    (header : option string) s :
  supplied_key r = Some header ->
  header = None \/ header = Some "" \/
    (exists k, header = Some k /\ k <> key) ->
  (body_unreadable r = false ->
   reply (Some key) r s = (401, inl unauthorized, s)) /\
  (body_unreadable r = true ->
   exists e, reply (Some key) r s = (http_status r (inl e), inl e, s) /\
             (e = RequestValidationError /\ http_status r (inl e) = 422 \/
              e = body_error /\ http_status r (inl e) = 400)).
Proof.
  intros Hr Hbad. split; intros Hb.
  - apply (app_v2_fail _ _ (api_key_header header)).
    + apply checked_key_spec. eauto.
    + destruct Hbad as [->|[->|(k & -> & Hk)]]; cbn; try discriminate.
      destruct k; [discriminate|congruence].
  - destruct r as [| | | | | | | | |h why]; cbn in Hb; try discriminate.
    unfold reply. cbn [app]. rewrite Hb.
    destruct why; try discriminate; eexists; (split; [reflexivity|]); auto.
Qed.

Lemma v2_rejects_bad_key_when_configured_witness :
  (body_unreadable (DELETE_v2 (Some "") 1) = false ->
   reply (Some "secret") (DELETE_v2 (Some "") 1) tasks_data =
     (401, inl unauthorized, tasks_data)) /\
  (body_unreadable (DELETE_v2 (Some "") 1) = true ->
   exists e,
     reply (Some "secret") (DELETE_v2 (Some "") 1) tasks_data =
       (http_status (DELETE_v2 (Some "") 1) (inl e), inl e, tasks_data) /\
     (e = RequestValidationError /\
      http_status (DELETE_v2 (Some "") 1) (inl e) = 422 \/
      e = body_error /\
      http_status (DELETE_v2 (Some "") 1) (inl e) = 400)).
Proof.
  apply (v2_rejects_bad_key_when_configured "secret"
           (DELETE_v2 (Some "") 1) (Some "") tasks_data).
  - reflexivity.
  - right. left. reflexivity.
Defined.

(** C8, at the input where the code departs from it: no key configured,
    no header sent.  The DELETE is answered 200 and the task is gone. *)
Theorem missing_header_accepted_when_key_unset :
  reply None (DELETE_v2 None 1) tasks_data =
    (200, inr (RespMessage "Success" "Task with ID 1 deleted"), []).
Proof. reflexivity. Qed.

(** ** Ids across a sequence of requests *)

Lemma read_task_v1_store task_id s : snd (read_task_v1 task_id s) = s.
Proof.
  split_on_scan task_id s.
  - now rewrite read_task_v1_invalid.
  - erewrite read_task_v1_found; [reflexivity|assumption|eassumption].
  - now rewrite read_task_v1_missing.
Qed.

Lemma modify_task_v1_ids task_id u s :
  ids (snd (modify_task_v1 task_id u s)) = ids s /\
  List.length (snd (modify_task_v1 task_id u s)) = List.length s.
Proof.
  split_on_scan task_id s.
  - now rewrite modify_task_v1_invalid.
  - erewrite modify_task_v1_found; [|assumption|eassumption]. cbn [snd].
    apply list_find_lookup in Hfind as [Hn _].
    split; [|apply length_insert].
    unfold ids. rewrite list_fmap_insert. apply list_insert_id.
    rewrite list_lookup_fmap, Hn. reflexivity.
  - now rewrite modify_task_v1_missing.
Qed.

Lemma remove_task_v1_ids task_id s :
  snd (remove_task_v1 task_id s) = s \/
  exists n, ids (snd (remove_task_v1 task_id s)) = delete n (ids s).
Proof.
  split_on_scan task_id s.
  - left. now rewrite remove_task_v1_invalid.
  - right. erewrite remove_task_v1_found; [|assumption|eassumption].
    eexists. cbn [snd]. unfold ids. apply list_fmap_delete.
  - left. now rewrite remove_task_v1_missing.
Qed.

Lemma add_task_v1_ids (new_task : NewTask.t) s :
  ids (snd (add_task_v1 new_task s)) =
    ids s ++ [Z.of_nat (List.length s) + 1] /\
  List.length (snd (add_task_v1 new_task s)) = S (List.length s).
Proof.
  rewrite add_task_v1_run. cbn [snd]. unfold ids.
  rewrite fmap_app, length_app. cbn. split; [reflexivity|lia].
Qed.

Lemma id_effect_refl (r : Request) s : id_effect r s s.
Proof. left. split; reflexivity. Qed.

Lemma id_effect_guard API_KEY api_key (r : Request) (m : M Response) s :
  id_effect r s (snd (m s)) ->
  id_effect r s
    (snd (bind (validate_api_key API_KEY api_key) (fun _ => m) s)).
Proof.
  intros Hm. unfold bind.
  destruct (validate_api_key_outcome API_KEY api_key s)
    as [[_ ->]|[_ ->]]; [apply id_effect_refl|assumption].
Qed.

Lemma id_effect_create (r : Request) (b : NewTask.body) s :
  is_create r = true ->
  id_effect r s
    (snd (bind (parse_NewTask b) (fun nt => add_task_v1 nt) s)).
Proof.
  intros Hr. unfold bind.
  destruct (parse_NewTask_outcome b s) as [->|(nt & _ & ->)];
    [apply id_effect_refl|].
  right; left. split; [assumption|apply add_task_v1_ids].
Qed.

Lemma id_effect_update (r : Request) task_id (b : UpdateTask.t) s :
  id_effect r s
    (snd (bind (parse_UpdateTask b) (fun u => modify_task_v1 task_id u) s)).
Proof.
  unfold bind.
  destruct (parse_UpdateTask_outcome b s) as [->|(u & _ & ->)];
    [apply id_effect_refl|].
  left. apply modify_task_v1_ids.
Qed.

Lemma id_effect_read (r : Request) task_id s :
  id_effect r s (snd (read_task_v1 task_id s)).
Proof. rewrite read_task_v1_store. apply id_effect_refl. Qed.

Lemma id_effect_delete (r : Request) task_id s :
  is_delete r = true ->
  id_effect r s (snd (remove_task_v1 task_id s)).
Proof.
  intros Hr. destruct (remove_task_v1_ids task_id s) as [->|Hn];
    [apply id_effect_refl|].
  right; right. split; assumption.
Qed.

Lemma refuse_store (why : Refusal) s : snd (refuse why s) = s.
Proof. now destruct why. Qed.

Lemma id_effect_refuse (r : Request) (why : Refusal) s :
  id_effect r s (snd (refuse why s)).
Proof. rewrite refuse_store. apply id_effect_refl. Qed.

Lemma app_ids API_KEY (r : Request) s :
  id_effect r s (snd (app API_KEY r s)).
Proof.
  destruct r as [| | | | | | | |why|h why]; cbn [app];
    unfold read_task_v2, add_task_v2, modify_task_v2, remove_task_v2;
    try destruct (before_dependencies why);
    try apply id_effect_guard;
    first [ apply id_effect_read
          | now apply id_effect_create
          | apply id_effect_update
          | now apply id_effect_delete
          | apply id_effect_refuse ].
Qed.

(** Creates and updates keep the ids at [1 .. size]. *)
Lemma dense_tasks_data : dense tasks_data.
Proof. reflexivity. Qed.

Lemma dense_NoDup s : dense s -> NoDup (ids s).
Proof.
  unfold dense. intros ->. apply NoDup_fmap_2; [apply _|apply NoDup_seq].
Qed.

Lemma dense_app API_KEY (r : Request) s :
  is_delete r = false -> dense s -> dense (snd (app API_KEY r s)).
Proof.
  intros Hr Hs. unfold dense in *.
  destruct (app_ids API_KEY r s) as [[-> ->]|[(_ & -> & ->)|[Hd _]]].
  - assumption.
  - rewrite seq_S, fmap_app, Hs. cbn. do 2 f_equal. lia.
  - congruence.
Qed.

Lemma dense_serve API_KEY (rs : list Request) s :
  forallb (fun r => negb (is_delete r)) rs = true ->
  dense s -> dense (serve API_KEY rs s).
Proof.
  revert s. induction rs as [|r rs IH]; intros s Hrs Hs; [assumption|].
  cbn in Hrs. apply andb_prop in Hrs as [Hr Hrs].
  cbn [serve]. apply IH; [assumption|].
  apply dense_app; [|assumption]. now destruct (is_delete r).
Qed.

(** Updates and deletes keep distinct ids distinct. *)
Lemma NoDup_app_request API_KEY (r : Request) s :
  is_create r = false ->
  NoDup (ids s) -> NoDup (ids (snd (app API_KEY r s))).
Proof.
  intros Hr Hs.
  destruct (app_ids API_KEY r s) as [[-> _]|[(Hc & _)|(_ & n & ->)]].
  - assumption.
  - congruence.
  - eapply sublist_NoDup; [eassumption|apply sublist_delete].
Qed.

Lemma NoDup_serve API_KEY (rs : list Request) s :
  forallb (fun r => negb (is_create r)) rs = true ->
  NoDup (ids s) -> NoDup (ids (serve API_KEY rs s)).
Proof.
  revert s. induction rs as [|r rs IH]; intros s Hrs Hs; [assumption|].
  cbn in Hrs. apply andb_prop in Hrs as [Hr Hrs].
  cbn [serve]. apply IH; [assumption|].
  apply NoDup_app_request; [|assumption]. now destruct (is_create r).
Qed.

Lemma serve_app API_KEY (rs1 rs2 : list Request) s :
  serve API_KEY (rs1 ++ rs2) s = serve API_KEY rs2 (serve API_KEY rs1 s).
Proof.
  revert s. induction rs1 as [|r rs1 IH]; intros s; [reflexivity|].
  cbn [serve app]. apply IH.
Qed.

(** X12: as long as no create comes after a delete, the ids of the store
    are pairwise distinct. *)
Lemma ids_distinct_until_create_after_delete API_KEY
    (rs1 rs2 : list Request) :
  forallb (fun r => negb (is_delete r)) rs1 = true ->
  forallb (fun r => negb (is_create r)) rs2 = true ->
  NoDup (ids (serve API_KEY (rs1 ++ rs2) tasks_data)).
Proof.
  intros H1 H2. rewrite serve_app.
  apply NoDup_serve; [assumption|].
  apply dense_NoDup, dense_serve; [assumption|apply dense_tasks_data].
Qed.

Lemma ids_distinct_until_create_after_delete_witness :
  NoDup (ids (serve None
                ([ POST_v1 (NewTask.mkBody (Some "Write spec") None None);
                   POST_v1 (NewTask.mkBody (Some "Another") None None) ]
                 ++ [ DELETE_v1 1; PATCH_v1 2 (UpdateTask.mk None None None) ])
                tasks_data)).
Proof.
  apply (ids_distinct_until_create_after_delete None
           [ POST_v1 (NewTask.mkBody (Some "Write spec") None None);
             POST_v1 (NewTask.mkBody (Some "Another") None None) ]
           [ DELETE_v1 1; PATCH_v1 2 (UpdateTask.mk None None None) ]).
  - reflexivity.
  - reflexivity.
Defined.

(** C1, at the input where the code departs from it: create a task,
    delete task 1, create another.  The store then holds two tasks
    numbered 2. *)
Theorem ids_collide_after_delete_then_create :
  ids (serve None
         [ POST_v1 (NewTask.mkBody (Some "Write spec") None None);
           DELETE_v1 1;
           POST_v1 (NewTask.mkBody (Some "Another") None None) ]
         tasks_data) = [2; 2] /\
  ~ NoDup [2; 2].
Proof.
  split; [reflexivity|].
  intros H. apply NoDup_cons in H as [Hin _]. apply Hin. left.
Qed.

(** ** Reading after a delete and after a create *)

Lemma NoDup_delete_lookup (l : list Z) n (x : Z) :
  NoDup l -> l !! n = Some x -> x ∉ delete n l.
Proof.
  intros Hnd Hn. rewrite <- (take_drop_middle l n x Hn) in Hnd.
  apply NoDup_app in Hnd as (_ & Hsep & Hrest).
  apply NoDup_cons in Hrest as [Hdrop _].
  rewrite delete_take_drop, elem_of_app. intros [Hin|Hin].
  - apply (Hsep x Hin). left.
  - contradiction.
Qed.

(** X13: with pairwise distinct ids, a task that was deleted is not found
    afterwards: GET of its id answers 404. *)
Lemma read_after_remove_distinct task_id s (a : Response) (s' : list Task) :
  NoDup (ids s) ->
  remove_task_v1 task_id s = (inr a, s') ->
  read_task_v1 task_id s' = (inl (not_found task_id), s').
Proof.
  intros Hnd Hrm. split_on_scan task_id s.
  - rewrite remove_task_v1_invalid in Hrm by assumption. discriminate.
  - erewrite remove_task_v1_found in Hrm; [|assumption|eassumption].
    injection Hrm as _ <-.
    apply read_task_v1_missing; [assumption|].
    apply list_find_ids_None. unfold ids. rewrite list_fmap_delete.
    apply NoDup_delete_lookup; [assumption|].
    apply list_find_lookup in Hfind as [Hn Hid].
    rewrite list_lookup_fmap, Hn. cbn. congruence.
  - rewrite remove_task_v1_missing in Hrm by assumption. discriminate.
Qed.

Lemma read_after_remove_distinct_witness :
  read_task_v1 1 [] = (inl (not_found 1), []).
Proof.
  apply (read_after_remove_distinct 1 tasks_data
           (RespMessage "Success" "Task with ID 1 deleted") []).
  - unfold ids. cbn. apply NoDup_singleton.
  - reflexivity.
Defined.

(** C2, at the input where the code departs from it: once two tasks are
    numbered 2, deleting task 2 removes the first of them and the next
    GET of task 2 is answered 200 with the second. *)
Theorem deleted_id_still_found_among_duplicates :
  let s := serve None
             [ POST_v1 (NewTask.mkBody (Some "Write spec") None None);
               DELETE_v1 1;
               POST_v1 (NewTask.mkBody (Some "Another") None None) ]
             tasks_data in
  reply None (DELETE_v1 2) s =
    (200, inr (RespMessage "Success" "Task with ID 2 deleted"),
     [mkTask 2 "Another" None false]) /\
  reply None (GET_v1 2) [mkTask 2 "Another" None false] =
    (200, inr (RespTask "Success" (mkTask 2 "Another" None false)),
     [mkTask 2 "Another" None false]).
Proof. split; reflexivity. Qed.

(** X14: when [size + 1] is not yet in use, the task just created is the
    one read back under the returned Id, with the supplied title and
    description and with [done] false unless supplied. *)
Lemma read_back_created_when_fresh API_KEY (b : NewTask.body)
    (title : string) s :
  NewTask.b_Title b = Some title ->
  title <> "" ->
  Z.of_nat (List.length s) + 1 ∉ ids s ->
  let task_to_add :=
    mkTask (Z.of_nat (List.length s) + 1) title (NewTask.b_Description b)
           (default false (NewTask.b_done b)) in
  reply API_KEY (POST_v1 b) s =
    (201, inr (RespTaskAdded "Success" task_to_add), s ++ [task_to_add]) /\
  reply API_KEY (GET_v1 (Id task_to_add)) (s ++ [task_to_add]) =
    (200, inr (RespTask "Success" task_to_add), s ++ [task_to_add]).
Proof.
  intros Htitle Hne Hfresh. cbv zeta. split.
  - now apply post_v1_run.
  - unfold reply. cbn [app Id].
    erewrite read_task_v1_found; [reflexivity|lia|].
    apply list_find_app_Some. right.
    split; [reflexivity|]. split; [now apply list_find_ids_None|].
    rewrite Nat.sub_diag. cbn.
    destruct (decide (Z.of_nat (List.length s) + 1
                      = Z.of_nat (List.length s) + 1));
      [reflexivity|congruence].
Qed.

Lemma read_back_created_when_fresh_witness :
  reply None (POST_v1 (NewTask.mkBody (Some "Write spec") None None))
        tasks_data =
    (201, inr (RespTaskAdded "Success" (mkTask 2 "Write spec" None false)),
     tasks_data ++ [mkTask 2 "Write spec" None false]) /\
  reply None (GET_v1 2) (tasks_data ++ [mkTask 2 "Write spec" None false]) =
    (200, inr (RespTask "Success" (mkTask 2 "Write spec" None false)),
     tasks_data ++ [mkTask 2 "Write spec" None false]).
Proof.
  apply (read_back_created_when_fresh None
           (NewTask.mkBody (Some "Write spec") None None) "Write spec"
           tasks_data).
  - reflexivity.
  - discriminate.
  - unfold ids. cbn. intros Hin. apply list_elem_of_singleton in Hin.
    discriminate.
Defined.

Lemma dense_fresh s : dense s -> Z.of_nat (List.length s) + 1 ∉ ids s.
Proof.
  unfold dense. intros ->. rewrite list_elem_of_fmap.
  intros (k & Hk & Hin). apply elem_of_seq in Hin. lia.
Qed.

(** C4, at the input where the code departs from it: after a create and
    the deletion of task 1 the store has one task, numbered 2.  The next
    create is given Id 2 as well, and GET of task 2 answers with the
    older task, not with the one just created. *)
Theorem read_after_create_returns_older_task :
  let s := serve None
             [ POST_v1 (NewTask.mkBody (Some "Write spec") None None);
               DELETE_v1 1 ]
             tasks_data in
  reply None (POST_v1 (NewTask.mkBody (Some "Another") None None)) s =
    (201, inr (RespTaskAdded "Success" (mkTask 2 "Another" None false)),
     [mkTask 2 "Write spec" None false; mkTask 2 "Another" None false]) /\
  reply None (GET_v1 2)
        [mkTask 2 "Write spec" None false; mkTask 2 "Another" None false] =
    (200, inr (RespTask "Success" (mkTask 2 "Write spec" None false)),
     [mkTask 2 "Write spec" None false; mkTask 2 "Another" None false]).
Proof. split; reflexivity. Qed.

(** ** The scenario of the specification *)

Example scenario :
  let s1 := snd (app None
                   (POST_v1 (NewTask.mkBody (Some "Write spec") None None))
                   tasks_data) in
  let s2 := snd (app None
                   (PATCH_v1 2 (UpdateTask.mk None None (Some true))) s1) in
  let s3 := snd (app None (DELETE_v1 1) s2) in
  s2 !! 1%nat = Some (mkTask 2 "Write spec" None true) /\
  s3 = [mkTask 2 "Write spec" None true] /\
  fst (fst (reply None (GET_v1 1) s3)) = 404.
Proof. repeat split. Qed.

(** * Further properties of the handlers *)

(** ** Lookup by id *)

Lemma first_with_id_cons task_id (y : Task) s :
  first_with_id task_id (y :: s) =
  if decide (Id y = task_id) then Some y else first_with_id task_id s.
Proof.
  unfold first_with_id. cbn. destruct (decide (Id y = task_id)); [reflexivity|].
  now destruct (list_find _ s) as [[? ?]|].
Qed.

Lemma first_with_id_find task_id s n t :
  list_find (fun t => Id t = task_id) s = Some (n, t) ->
  first_with_id task_id s = Some t.
Proof. unfold first_with_id. now intros ->. Qed.

Lemma first_with_id_None task_id s :
  first_with_id task_id s = None <-> task_id ∉ ids s.
Proof.
  rewrite <- list_find_ids_None. unfold first_with_id.
  destruct (list_find _ s) as [[? ?]|]; cbn; split; congruence.
Qed.

(** The answer of GET, read off the lookup. *)
Lemma read_task_v1_result task_id s :
  read_task_v1 task_id s =
  (if task_id <=? 0 then inl invalid_id
   else match first_with_id task_id s with
        | Some t => inr (RespTask "Success" t)
        | None => inl (not_found task_id)
        end, s).
Proof.
  split_on_scan task_id s.
  - rewrite read_task_v1_invalid by assumption.
    now rewrite (proj2 (Z.leb_le task_id 0) Hle).
  - erewrite read_task_v1_found; [|assumption|eassumption].
    rewrite (proj2 (Z.leb_gt task_id 0) Hle).
    now rewrite (first_with_id_find _ _ _ _ Hfind).
  - rewrite read_task_v1_missing by assumption.
    rewrite (proj2 (Z.leb_gt task_id 0) Hle).
    unfold first_with_id. now rewrite Hfind.
Qed.

Lemma first_with_id_snoc task_id s t :
  first_with_id task_id (s ++ [t]) =
  match first_with_id task_id s with
  | Some t0 => Some t0
  | None => if decide (Id t = task_id) then Some t else None
  end.
Proof.
  induction s as [|y s IH]; cbn [Datatypes.app].
  - rewrite first_with_id_cons. reflexivity.
  - rewrite !first_with_id_cons.
    destruct (decide (Id y = task_id)); [reflexivity|assumption].
Qed.

Lemma first_with_id_delete_other task_id s n t :
  s !! n = Some t -> Id t <> task_id ->
  first_with_id task_id (delete n s) = first_with_id task_id s.
Proof.
  revert n. induction s as [|y s IH]; intros [|n] Hn Hne; try discriminate.
  - cbn in Hn. injection Hn as ->. cbn [delete list_delete].
    rewrite first_with_id_cons.
    destruct (decide (Id t = task_id)); [contradiction|reflexivity].
  - cbn in Hn. change (delete (S n) (y :: s)) with (y :: delete n s).
    rewrite !first_with_id_cons.
    destruct (decide (Id y = task_id)); [reflexivity|].
    now apply IH.
Qed.

Lemma first_with_id_insert_other task_id s n t (t' : Task) :
  s !! n = Some t -> Id t <> task_id -> Id t' = Id t ->
  first_with_id task_id (<[n := t']> s) = first_with_id task_id s.
Proof.
  revert n. induction s as [|y s IH]; intros [|n] Hn Hne Hid; try discriminate.
  - cbn in Hn. injection Hn as ->.
    change (<[0%nat := t']> (t :: s)) with (t' :: s).
    rewrite !first_with_id_cons.
    destruct (decide (Id t' = task_id)); [congruence|].
    destruct (decide (Id t = task_id)); [contradiction|reflexivity].
  - cbn in Hn. change (<[S n := t']> (y :: s)) with (y :: <[n := t']> s).
    rewrite !first_with_id_cons.
    destruct (decide (Id y = task_id)); [reflexivity|].
    now apply IH.
Qed.

Lemma first_with_id_insert_found task_id s n t (t' : Task) :
  list_find (fun t => Id t = task_id) s = Some (n, t) ->
  Id t' = task_id ->
  list_find (fun t => Id t = task_id) (<[n := t']> s) = Some (n, t').
Proof.
  intros Hfind Hid. apply list_find_Some in Hfind as (Hn & _ & Hbefore).
  apply list_find_Some. split; [|split; [assumption|]].
  - apply list_lookup_insert_eq. eapply lookup_lt_Some; eassumption.
  - intros j y Hj Hlt. apply (Hbefore j y); [|assumption].
    rewrite list_lookup_insert_ne in Hj by lia. assumption.
Qed.

Lemma found_in_ids task_id s n t :
  list_find (fun t => Id t = task_id) s = Some (n, t) -> task_id ∈ ids s.
Proof.
  intros Hfind. destruct (decide (task_id ∈ ids s)) as [|Hnot]; [assumption|].
  apply list_find_ids_None in Hnot. congruence.
Qed.

Lemma reply_run API_KEY (r : Request) s (res : Exn + Response)
    (s' : list Task) :
  app API_KEY r s = (res, s') ->
  reply API_KEY r s = (http_status r res, res, s').
Proof. unfold reply. now intros ->. Qed.

(** ** Status of the routes that take an id *)

Lemma refused_v1_reply API_KEY (why : Refusal) s :
  fst (fst (reply API_KEY (REFUSED_v1 why) s)) =
    match why with
    | BodyNotParsed => 400
    | BodyNotJSON | ArgumentsInvalid => 422
    end /\
  snd (reply API_KEY (REFUSED_v1 why) s) = s.
Proof. now destruct why. Qed.

Lemma id_routes_status_by_id API_KEY task_id u s :
  let by_id :=
    if task_id <=? 0 then 400
    else if bool_decide (task_id ∈ ids s) then 200 else 404 in
  fst (fst (reply API_KEY (GET_v1 task_id) s)) = by_id /\
  fst (fst (reply API_KEY (DELETE_v1 task_id) s)) = by_id /\
  fst (fst (reply API_KEY (PATCH_v1 task_id u) s)) =
    if decide (UpdateTask.Title u = Some "") then 422 else by_id.
Proof.
  cbv zeta.
  assert (Hpatch : UpdateTask.Title u <> Some "" ->
            app API_KEY (PATCH_v1 task_id u) s = modify_task_v1 task_id u s).
  { intros Hti. cbn [app]. unfold bind, parse_UpdateTask, UpdateTask.validate.
    destruct (UpdateTask.Title u) as [[|c ti]|]; [congruence|reflexivity..]. }
  assert (Hbad : UpdateTask.Title u = Some "" ->
            app API_KEY (PATCH_v1 task_id u) s
            = (inl RequestValidationError, s)).
  { intros Hti. cbn [app]. unfold bind, parse_UpdateTask, UpdateTask.validate.
    now rewrite Hti. }
  destruct (decide (UpdateTask.Title u = Some "")) as [Hti|Hti];
    [rewrite (reply_run _ _ _ _ _ (Hbad Hti))
    |unfold reply at 3; rewrite (Hpatch Hti)];
    unfold reply; cbn [app];
    split_on_scan task_id s.
  all: try rewrite (proj2 (Z.leb_le task_id 0) Hle).
  all: try rewrite (proj2 (Z.leb_gt task_id 0) Hle).
  all: try rewrite (bool_decide_eq_true_2 _ (found_in_ids _ _ _ _ Hfind)).
  all: try rewrite (bool_decide_eq_false_2 _
                      (proj1 (list_find_ids_None _ _) Hfind)).
  all: rewrite ?read_task_v1_invalid, ?remove_task_v1_invalid,
         ?modify_task_v1_invalid by assumption.
  all: rewrite ?read_task_v1_missing, ?remove_task_v1_missing,
         ?modify_task_v1_missing by assumption.
  all: try (erewrite read_task_v1_found; [|assumption|eassumption]).
  all: try (erewrite remove_task_v1_found; [|assumption|eassumption]).
  all: try (erewrite modify_task_v1_found; [|assumption|eassumption]).
  all: repeat split; reflexivity.
Qed.

(** X1: on the v1 routes, a GET or a DELETE whose path id is an integer
    is answered by the id alone: 400 when it is not positive, else 200
    when some task carries it and 404 when none does.  A PATCH with an
    integer id and a body that is a JSON object with members of the
    declared types is answered 422 when its Title is the empty string,
    and by the same rule on the id otherwise.  A request the framework
    refuses before the handler (an id that is not an integer, a body
    that is missing, unreadable or not of the declared types) is
    answered 422, or 400 when reading the body fails otherwise than by a
    JSON decoding error, and leaves the store as it was. *)
Theorem id_routes_status API_KEY task_id u (why : Refusal) s :
  let by_id :=
    if task_id <=? 0 then 400
    else if bool_decide (task_id ∈ ids s) then 200 else 404 in
  fst (fst (reply API_KEY (GET_v1 task_id) s)) = by_id /\
  fst (fst (reply API_KEY (DELETE_v1 task_id) s)) = by_id /\
  fst (fst (reply API_KEY (PATCH_v1 task_id u) s)) =
    (if decide (UpdateTask.Title u = Some "") then 422 else by_id) /\
  fst (fst (reply API_KEY (REFUSED_v1 why) s)) =
    match why with
    | BodyNotParsed => 400
    | BodyNotJSON | ArgumentsInvalid => 422
    end /\
  snd (reply API_KEY (REFUSED_v1 why) s) = s.
Proof.
  cbv zeta.
  destruct (id_routes_status_by_id API_KEY task_id u s) as (Hg & Hd & Hp).
  destruct (refused_v1_reply API_KEY why s) as [Hr Hs].
  auto.
Qed.

(** ** GET does not write *)

(** X2: a GET, on either version and whatever its outcome, leaves the
    store exactly as it found it. *)
Theorem get_leaves_store_unchanged API_KEY api_key task_id s :
  snd (reply API_KEY (GET_v1 task_id) s) = s /\
  snd (reply API_KEY (GET_v2 api_key task_id) s) = s.
Proof.
  unfold reply. cbn [app]. unfold read_task_v2, bind. split.
  - rewrite read_task_v1_result. reflexivity.
  - destruct (validate_api_key_outcome API_KEY (api_key_header api_key) s)
      as [[_ ->]|[_ ->]]; [reflexivity|].
    rewrite read_task_v1_result. reflexivity.
Qed.

(** ** Validation of a create *)



Ltac scan_cases task_id s n t Hle Hfind :=
  destruct (Z_le_gt_dec task_id 0) as [Hle|Hle];
  [| apply Z.gt_lt in Hle;
     destruct (list_find (fun t => Id t = task_id) s) as [[n t]|] eqn:Hfind ].

(** ** What a delete removes *)

(** X4: a DELETE that succeeds removes one task, the first one carrying
    the id; the tasks before it and after it stay, in their order. *)
Theorem delete_removes_first_match task_id s (a : Response)
    (s' : list Task) :
  remove_task_v1 task_id s = (inr a, s') ->
  exists (before after : list Task) t,
    s = before ++ t :: after /\
    s' = before ++ after /\
    Id t = task_id /\
    task_id ∉ ids before.
Proof.
  intros Hrm. scan_cases task_id s n t Hle Hfind.
  - rewrite remove_task_v1_invalid in Hrm by assumption. discriminate.
  - erewrite remove_task_v1_found in Hrm; [|assumption|eassumption].
    injection Hrm as _ <-.
    apply list_find_Some in Hfind as (Hn & Hid & Hbefore).
    exists (take n s), (drop (S n) s), t.
    split; [symmetry; now apply take_drop_middle|].
    split; [apply delete_take_drop|]. split; [assumption|].
    unfold ids. rewrite list_elem_of_fmap. intros (y & Hy & Hin).
    apply list_elem_of_lookup in Hin as [j Hj].
    apply lookup_take_Some in Hj as [Hj Hlt].
    apply (Hbefore j y Hj Hlt). congruence.
  - rewrite remove_task_v1_missing in Hrm by assumption. discriminate.
Qed.

Lemma delete_removes_first_match_witness :
  exists (before after : list Task) t,
    [mkTask 1 "a" None false; mkTask 2 "b" None false;
     mkTask 2 "c" None true] = before ++ t :: after /\
    [mkTask 1 "a" None false; mkTask 2 "c" None true] = before ++ after /\
    Id t = 2 /\
    2 ∉ ids before.
Proof.
  apply (delete_removes_first_match 2
           [mkTask 1 "a" None false; mkTask 2 "b" None false;
            mkTask 2 "c" None true]
           (RespMessage "Success" "Task with ID 2 deleted")).
  reflexivity.
Defined.

(** ** Updates compose *)

Lemma apply_update_twice u t :
  apply_update u (apply_update u t) = apply_update u t.
Proof. destruct u as [[?|] [?|] [?|]]; reflexivity. Qed.

(** X5: sending the same PATCH a second time changes nothing more: the
    answer and the store are those of the first. *)
Theorem update_twice_is_update_once task_id u s :
  let '(res, s') := modify_task_v1 task_id u s in
  modify_task_v1 task_id u s' = (res, s').
Proof.
  scan_cases task_id s n t Hle Hfind.
  - rewrite modify_task_v1_invalid by assumption.
    now apply modify_task_v1_invalid.
  - erewrite modify_task_v1_found; [|assumption|eassumption].
    pose proof (list_find_lookup _ _ _ _ Hfind) as [_ Hid].
    erewrite modify_task_v1_found;
      [|assumption
       |apply (first_with_id_insert_found _ _ _ _ (apply_update u t) Hfind);
        exact Hid].
    rewrite list_insert_insert_eq, apply_update_twice. reflexivity.
  - rewrite modify_task_v1_missing by assumption.
    now apply modify_task_v1_missing.
Qed.

(** X6: after a PATCH that succeeded, GET of the same id answers with
    the updated task: supplied fields as supplied, the others as they
    were.  This holds also when several tasks carry the id. *)
Theorem read_after_update task_id u s n t (a : Response) (s' : list Task) :
  list_find (fun t => Id t = task_id) s = Some (n, t) ->
  modify_task_v1 task_id u s = (inr a, s') ->
  read_task_v1 task_id s' =
    (inr (RespTask "Success" (apply_update u t)), s').
Proof.
  intros Hfind Hmod.
  destruct (Z_le_gt_dec task_id 0) as [Hle|Hgt].
  { rewrite modify_task_v1_invalid in Hmod by assumption. discriminate. }
  apply Z.gt_lt in Hgt.
  rewrite (modify_task_v1_found _ u _ _ _ Hgt Hfind) in Hmod.
  injection Hmod as _ <-.
  pose proof (list_find_lookup _ _ _ _ Hfind) as [_ Hid].
  eapply read_task_v1_found; [assumption|].
  apply (first_with_id_insert_found _ _ _ _ (apply_update u t) Hfind).
  exact Hid.
Qed.

Lemma read_after_update_witness :
  read_task_v1 1
    [mkTask 1 "Complete Lab Activity" (Some "Finish Lab Activity 2") true] =
    (inr (RespTask "Success"
            (apply_update (UpdateTask.mk None None (Some true))
               (mkTask 1 "Complete Lab Activity"
                       (Some "Finish Lab Activity 2") false))),
     [mkTask 1 "Complete Lab Activity" (Some "Finish Lab Activity 2") true]).
Proof.
  apply (read_after_update 1 (UpdateTask.mk None None (Some true))
           tasks_data 0
           (mkTask 1 "Complete Lab Activity"
                   (Some "Finish Lab Activity 2") false)
           (RespMessage "Success" "Task Updated Successfully")).
  - reflexivity.
  - reflexivity.
Defined.

(** ** Other ids are not affected *)

Lemma read_task_v1_by_lookup task_id s (s' : list Task) :
  first_with_id task_id s' = first_with_id task_id s ->
  fst (read_task_v1 task_id s') = fst (read_task_v1 task_id s).
Proof. intros H. rewrite !read_task_v1_result. cbn [fst]. now rewrite H. Qed.

(** X7: a PATCH or a DELETE of one id, whatever its outcome, does not
    change what GET answers for any other id. *)
Theorem update_and_delete_spare_other_ids task_id (other : Z) u s :
  other <> task_id ->
  fst (read_task_v1 other (snd (modify_task_v1 task_id u s))) =
    fst (read_task_v1 other s) /\
  fst (read_task_v1 other (snd (remove_task_v1 task_id s))) =
    fst (read_task_v1 other s).
Proof.
  intros Hne. scan_cases task_id s n t Hle Hfind.
  - now rewrite modify_task_v1_invalid, remove_task_v1_invalid.
  - erewrite modify_task_v1_found; [|assumption|eassumption].
    erewrite remove_task_v1_found; [|assumption|eassumption].
    apply list_find_lookup in Hfind as [Hn Hid]. cbn [snd].
    split; apply read_task_v1_by_lookup.
    + apply (first_with_id_insert_other _ _ _ t); [assumption|congruence|].
      reflexivity.
    + apply (first_with_id_delete_other _ _ _ t); [assumption|congruence].
  - now rewrite modify_task_v1_missing, remove_task_v1_missing.
Qed.

Lemma update_and_delete_spare_other_ids_witness :
  fst (read_task_v1 1
         (snd (modify_task_v1 2 (UpdateTask.mk (Some "x") None None)
                 [mkTask 1 "a" None false; mkTask 2 "b" None false]))) =
    fst (read_task_v1 1
           [mkTask 1 "a" None false; mkTask 2 "b" None false]) /\
  fst (read_task_v1 1
         (snd (remove_task_v1 2
                 [mkTask 1 "a" None false; mkTask 2 "b" None false]))) =
    fst (read_task_v1 1
           [mkTask 1 "a" None false; mkTask 2 "b" None false]).
Proof.
  apply (update_and_delete_spare_other_ids 2 1
           (UpdateTask.mk (Some "x") None None)
           [mkTask 1 "a" None false; mkTask 2 "b" None false]).
  lia.
Defined.

(** X8: a create does not change what GET answers for an id that is
    already in the store, nor for any id other than the one it assigns
    ([size + 1]). *)
Theorem create_spares_existing_ids (new_task : NewTask.t) (other : Z) s :
  other ∈ ids s \/ other <> Z.of_nat (List.length s) + 1 ->
  fst (read_task_v1 other (snd (add_task_v1 new_task s))) =
    fst (read_task_v1 other s).
Proof.
  intros Hother. rewrite add_task_v1_run. cbn [snd].
  apply read_task_v1_by_lookup. rewrite first_with_id_snoc.
  destruct (first_with_id other s) as [t0|] eqn:Hfirst; [reflexivity|].
  cbn [Id]. destruct Hother as [Hin|Hne].
  - apply first_with_id_None in Hfirst. contradiction.
  - destruct (decide (Z.of_nat (List.length s) + 1 = other));
      [congruence|reflexivity].
Qed.

Lemma create_spares_existing_ids_witness :
  fst (read_task_v1 2
         (snd (add_task_v1 (NewTask.mk "Another" None false)
                 [mkTask 2 "Write spec" None false]))) =
    fst (read_task_v1 2 [mkTask 2 "Write spec" None false]).
Proof.
  apply (create_spares_existing_ids (NewTask.mk "Another" None false) 2
           [mkTask 2 "Write spec" None false]).
  left. unfold ids. cbn. left.
Defined.

(** ** Tasks in a reachable store *)

Lemma validate_NewTask_title (b : NewTask.body) (nt : NewTask.t) :
  NewTask.validate b = Some nt -> NewTask.Title nt <> "".
Proof.
  unfold NewTask.validate.
  destruct (NewTask.b_Title b) as [[|c title]|]; cbn; try discriminate.
  intros [= <-]. discriminate.
Qed.

Lemma validate_UpdateTask_title (b u : UpdateTask.t) :
  UpdateTask.validate b = Some u -> UpdateTask.Title u <> Some "".
Proof.
  unfold UpdateTask.validate.
  destruct (UpdateTask.Title b) as [[|c title]|] eqn:Hb; cbn;
    try discriminate; intros [= <-]; rewrite Hb; discriminate.
Qed.

Lemma well_formed_add (new_task : NewTask.t) s :
  NewTask.Title new_task <> "" ->
  Forall well_formed s ->
  Forall well_formed (snd (add_task_v1 new_task s)).
Proof.
  intros Hti Hs. rewrite add_task_v1_run. cbn [snd].
  apply Forall_app. split; [assumption|].
  constructor; [|constructor]. split; cbn; [lia|assumption].
Qed.

Lemma well_formed_modify task_id u s :
  UpdateTask.Title u <> Some "" ->
  Forall well_formed s ->
  Forall well_formed (snd (modify_task_v1 task_id u s)).
Proof.
  intros Hti Hs. scan_cases task_id s n t Hle Hfind.
  - now rewrite modify_task_v1_invalid.
  - erewrite modify_task_v1_found; [|assumption|eassumption]. cbn [snd].
    apply list_find_lookup in Hfind as [Hn _].
    apply Forall_insert; [assumption|].
    destruct (Forall_lookup_1 _ _ _ _ Hs Hn) as [Hid Htitle].
    split; cbn; [assumption|].
    destruct (UpdateTask.Title u) as [v|]; cbn; [congruence|assumption].
  - now rewrite modify_task_v1_missing.
Qed.

Lemma well_formed_remove task_id s :
  Forall well_formed s ->
  Forall well_formed (snd (remove_task_v1 task_id s)).
Proof.
  intros Hs. scan_cases task_id s n t Hle Hfind.
  - now rewrite remove_task_v1_invalid.
  - erewrite remove_task_v1_found; [|assumption|eassumption]. cbn [snd].
    now apply Forall_delete.
  - now rewrite remove_task_v1_missing.
Qed.

Lemma well_formed_app API_KEY (r : Request) s :
  Forall well_formed s -> Forall well_formed (snd (app API_KEY r s)).
Proof.
  intros Hs.
  assert (Hguard : forall api_key (m : M Response),
             Forall well_formed (snd (m s)) ->
             Forall well_formed
               (snd (bind (validate_api_key API_KEY api_key)
                          (fun _ => m) s))).
  { intros api_key m Hm. unfold bind.
    destruct (validate_api_key_outcome API_KEY api_key s)
      as [[_ ->]|[_ ->]]; assumption. }
  assert (Hnew : forall b,
             Forall well_formed
               (snd (bind (parse_NewTask b) (fun nt => add_task_v1 nt) s))).
  { intros b. unfold bind.
    destruct (parse_NewTask_outcome b s) as [->|(nt & Hv & ->)];
      [assumption|].
    apply well_formed_add; [|assumption].
    now apply (validate_NewTask_title b). }
  assert (Hupd : forall task_id b,
             Forall well_formed
               (snd (bind (parse_UpdateTask b)
                          (fun u => modify_task_v1 task_id u) s))).
  { intros task_id b. unfold bind.
    destruct (parse_UpdateTask_outcome b s) as [->|(u & Hv & ->)];
      [assumption|].
    apply well_formed_modify; [|assumption].
    now apply (validate_UpdateTask_title b). }
  destruct r as [| | | | | | | |why|h why]; cbn [app];
    unfold read_task_v2, add_task_v2, modify_task_v2, remove_task_v2;
    try destruct (before_dependencies why);
    try apply Hguard;
    first [ now rewrite read_task_v1_store
          | apply Hnew
          | apply Hupd
          | now apply well_formed_remove
          | now rewrite refuse_store ].
Qed.

(** X9: in every store reached from the initial one by any sequence of
    requests (either version, accepted or rejected), every task has a
    positive Id and a non-empty Title. *)
Theorem served_tasks_are_well_formed API_KEY (rs : list Request) :
  Forall well_formed (serve API_KEY rs tasks_data).
Proof.
  assert (Hgen : forall s, Forall well_formed s ->
                           Forall well_formed (serve API_KEY rs s)).
  { induction rs as [|r rs IH]; intros s Hs; [assumption|].
    cbn [serve]. apply IH. now apply well_formed_app. }
  apply Hgen. constructor; [|constructor]. split; cbn; [lia|discriminate].
Qed.

(** ** Ids while nothing is deleted, and after the first delete *)

(** X10: as long as no DELETE is among the requests served since the
    start, the Ids in the store are exactly 1, 2, ..., size, in the order
    of the list. *)
Theorem ids_count_up_without_delete API_KEY (rs : list Request) :
  forallb (fun r => negb (is_delete r)) rs = true ->
  ids (serve API_KEY rs tasks_data) =
    Z.of_nat <$> seq 1 (List.length (serve API_KEY rs tasks_data)).
Proof.
  intros Hrs. apply (dense_serve API_KEY rs tasks_data Hrs).
  apply dense_tasks_data.
Qed.

Lemma ids_count_up_without_delete_witness :
  ids (serve None
         [ POST_v1 (NewTask.mkBody (Some "Write spec") None None);
           PATCH_v1 2 (UpdateTask.mk None None (Some true));
           POST_v1 (NewTask.mkBody None None None);
           GET_v1 5 ]
         tasks_data) =
    Z.of_nat <$>
      seq 1 (List.length
               (serve None
                  [ POST_v1 (NewTask.mkBody (Some "Write spec") None None);
                    PATCH_v1 2 (UpdateTask.mk None None (Some true));
                    POST_v1 (NewTask.mkBody None None None);
                    GET_v1 5 ]
                  tasks_data)).
Proof.
  apply (ids_count_up_without_delete None
           [ POST_v1 (NewTask.mkBody (Some "Write spec") None None);
             PATCH_v1 2 (UpdateTask.mk None None (Some true));
             POST_v1 (NewTask.mkBody None None None);
             GET_v1 5 ]).
  reflexivity.
Defined.

Lemma dense_lookup s n t :
  dense s -> s !! n = Some t -> Id t = Z.of_nat (S n).
Proof.
  unfold dense, ids. intros Hd Hn.
  assert (Hlt : (n < List.length s)%nat)
    by (eapply lookup_lt_Some; eassumption).
  assert (H : (Id <$> s) !! n = (Z.of_nat <$> seq 1 (List.length s)) !! n)
    by now rewrite Hd.
  rewrite !list_lookup_fmap, Hn, (lookup_seq_lt _ _ _ Hlt) in H.
  cbn in H. congruence.
Qed.

Lemma dense_find s (k : Z) :
  dense s -> 1 <= k <= Z.of_nat (List.length s) ->
  exists t, list_find (fun t => Id t = k) s = Some (Z.to_nat (k - 1), t).
Proof.
  intros Hd Hk.
  destruct (lookup_lt_is_Some_2 s (Z.to_nat (k - 1))) as [t Ht]; [lia|].
  exists t. apply list_find_Some. split; [assumption|]. split.
  - rewrite (dense_lookup _ _ _ Hd Ht). lia.
  - intros j y Hj Hlt. rewrite (dense_lookup _ _ _ Hd Hj). lia.
Qed.

Lemma delete_last {A} (l : list A) (x : A) :
  delete (List.length l) (l ++ [x]) = l.
Proof. induction l as [|y l IH]; cbn; [reflexivity|]. now f_equal. Qed.

Lemma app_post_valid API_KEY (b : NewTask.body) (title : string) s :
  NewTask.b_Title b = Some title ->
  title <> "" ->
  ids (snd (app API_KEY (POST_v1 b) s)) =
    ids s ++ [Z.of_nat (List.length s) + 1].
Proof.
  intros Hb Hne. pose proof (post_v1_run API_KEY b title s Hb Hne) as Hrun.
  cbv zeta in Hrun. unfold reply in Hrun.
  destruct (app API_KEY (POST_v1 b) s) as [res s'].
  injection Hrun as _ _ ->. cbn [snd]. unfold ids. now rewrite fmap_app.
Qed.

(** X11: on a store whose Ids are 1 .. size, deleting task [k] and then
    creating a task leaves the Ids pairwise distinct exactly when [k] was
    the last one; after deleting any earlier task the create assigns an
    Id (the old size) that a stored task already carries. *)
Theorem delete_then_create_distinct_iff_last API_KEY (b : NewTask.body)
    (title : string) s (k : Z) :
  dense s ->
  NewTask.b_Title b = Some title ->
  title <> "" ->
  1 <= k <= Z.of_nat (List.length s) ->
  NoDup (ids (serve API_KEY [DELETE_v1 k; POST_v1 b] s)) <->
  k = Z.of_nat (List.length s).
Proof.
  intros Hd Hb Hne Hk. cbn [serve].
  change (app API_KEY (DELETE_v1 k) s) with (remove_task_v1 k s).
  destruct (dense_find s k Hd Hk) as [t Hfind].
  rewrite (remove_task_v1_found k s _ t ltac:(lia) Hfind).
  cbn [snd]. rewrite (app_post_valid API_KEY b title _ Hb Hne).
  assert (Hlen : List.length (delete (Z.to_nat (k - 1)) s)
                 = (List.length s - 1)%nat).
  { apply length_delete, lookup_lt_is_Some_2. lia. }
  rewrite Hlen. unfold ids at 1. rewrite list_fmap_delete.
  fold (ids s). rewrite Hd.
  destruct (List.length s) as [|m] eqn:Hm; [lia|].
  replace (S m - 1)%nat with m by lia.
  rewrite seq_S, fmap_app. cbn [fmap list_fmap].
  replace (Z.of_nat (1 + m)) with (Z.of_nat m + 1) by lia.
  split.
  - intros Hnd. destruct (decide (k = Z.of_nat (S m))) as [|Hlast];
      [assumption|exfalso].
    apply NoDup_app in Hnd as (_ & Hsep & _).
    apply (Hsep (Z.of_nat m + 1)); [|left].
    apply (list_elem_of_lookup_2 _ (m - 1)).
    rewrite list_lookup_delete_ge by lia.
    replace (S (m - 1)) with m by lia.
    rewrite lookup_app_r by (rewrite length_fmap, length_seq; lia).
    rewrite length_fmap, length_seq, Nat.sub_diag. reflexivity.
  - intros ->. replace (Z.to_nat (Z.of_nat (S m) - 1)) with m by lia.
    replace m with (List.length (Z.of_nat <$> seq 1 m)) at 1
      by (now rewrite length_fmap, length_seq).
    rewrite delete_last.
    replace (Z.of_nat m + 1) with (Z.of_nat (1 + m)) by lia.
    change ((Z.of_nat <$> seq 1 m) ++ [Z.of_nat (1 + m)])
      with ((Z.of_nat <$> seq 1 m) ++ (Z.of_nat <$> [(1 + m)%nat])).
    rewrite <- fmap_app, <- seq_S.
    apply NoDup_fmap_2; [apply _|apply NoDup_seq].
Qed.

Lemma delete_then_create_distinct_iff_last_witness :
  NoDup (ids (serve None
                [ DELETE_v1 1;
                  POST_v1 (NewTask.mkBody (Some "Another") None None) ]
                [mkTask 1 "a" None false; mkTask 2 "b" None false])) <->
  1 = Z.of_nat (List.length
                  [mkTask 1 "a" None false; mkTask 2 "b" None false]).
Proof.
  apply (delete_then_create_distinct_iff_last None
           (NewTask.mkBody (Some "Another") None None) "Another"
           [mkTask 1 "a" None false; mkTask 2 "b" None false] 1).
  - reflexivity.
  - reflexivity.
  - discriminate.
  - cbn. lia.
Defined.

(** ** When a request is answered 401 *)

Lemma v1_never_unauthorized API_KEY (r : Request) s :
  supplied_key r = None -> fst (fst (reply API_KEY r s)) <> 401.
Proof.
  destruct r as [i|b|i b|i| | | | |why| ]; cbn [supplied_key];
    try discriminate; intros _; unfold reply; cbn [app].
  - rewrite read_task_v1_result.
    destruct (i <=? 0); [discriminate|].
    destruct (first_with_id i s); discriminate.
  - unfold bind. destruct (parse_NewTask_outcome b s) as [->|(nt & _ & ->)];
      [discriminate|]. rewrite add_task_v1_run. discriminate.
  - unfold bind. destruct (parse_UpdateTask_outcome b s) as [->|(u & _ & ->)];
      [discriminate|].
    scan_cases i s n t Hle Hfind.
    + rewrite modify_task_v1_invalid by assumption. discriminate.
    + erewrite modify_task_v1_found; [|assumption|eassumption]. discriminate.
    + rewrite modify_task_v1_missing by assumption. discriminate.
  - scan_cases i s n t Hle Hfind.
    + rewrite remove_task_v1_invalid by assumption. discriminate.
    + erewrite remove_task_v1_found; [|assumption|eassumption]. discriminate.
    + rewrite remove_task_v1_missing by assumption. discriminate.
  - destruct why; discriminate.
Qed.

Lemma supplied_key_v1_of (r : Request) : supplied_key (v1_of r) = None.
Proof. now destruct r. Qed.

(** X16: a request is answered 401 exactly when it is a v2 request, the
    framework gets as far as the key check (the body, if the route takes
    one, could be read), and what the key header is handed over as (no
    key for a missing or empty header, its value otherwise) differs from
    the configured key.  No v1 request is ever answered 401. *)
Theorem unauthorized_iff_key_differs API_KEY (r : Request) s :
  fst (fst (reply API_KEY r s)) = 401 <->
  exists header,
    supplied_key r = Some header /\
    body_unreadable r = false /\
    api_key_header header <> API_KEY.
Proof.
  destruct (checked_key r) as [api_key|] eqn:Hkey.
  - pose proof (proj1 (checked_key_spec r api_key) Hkey)
      as (header & Hh & Hb & ->).
    split.
    + intros H401. exists header. split; [assumption|].
      split; [assumption|]. intros Heq. rewrite Heq in Hkey.
      rewrite (app_v2_pass API_KEY r s Hkey) in H401.
      now apply (v1_never_unauthorized API_KEY (v1_of r) s
                   (supplied_key_v1_of r)).
    + intros (h' & Hh' & _ & Hne).
      assert (h' = header) as -> by congruence.
      now rewrite (app_v2_fail API_KEY r _ s Hkey Hne).
  - split.
    + intros H401. exfalso.
      rewrite (app_unchecked API_KEY r s Hkey) in H401.
      now apply (v1_never_unauthorized API_KEY (v1_of r) s
                   (supplied_key_v1_of r)).
    + intros (header & Hh & Hb & _).
      assert (Hsome : checked_key r = Some (api_key_header header))
        by (apply checked_key_spec; eauto).
      congruence.
Qed.

(** ** Two updates in a row *)



(** ** The size of the store *)

Lemma store_size_v1 API_KEY (r : Request) s :
  supplied_key r = None ->
  let '(status, _, s') := reply API_KEY r s in
  List.length s' =
    if status =? 201 then S (List.length s)
    else if is_delete r && (status =? 200) then (List.length s - 1)%nat
    else List.length s.
Proof.
  destruct r as [i|b|i b|i| | | | |why| ]; cbn [supplied_key];
    try discriminate; intros _; unfold reply; cbn [app is_delete].
  - rewrite read_task_v1_result.
    destruct (i <=? 0); [reflexivity|].
    destruct (first_with_id i s); reflexivity.
  - unfold bind. destruct (parse_NewTask_outcome b s) as [->|(nt & _ & ->)];
      [reflexivity|]. rewrite add_task_v1_run. cbn.
    rewrite length_app. cbn. lia.
  - unfold bind. destruct (parse_UpdateTask_outcome b s) as [->|(u & _ & ->)];
      [reflexivity|].
    scan_cases i s n t Hle Hfind.
    + rewrite modify_task_v1_invalid by assumption. reflexivity.
    + erewrite modify_task_v1_found; [|assumption|eassumption]. cbn.
      apply length_insert.
    + rewrite modify_task_v1_missing by assumption. reflexivity.
  - scan_cases i s n t Hle Hfind.
    + rewrite remove_task_v1_invalid by assumption. reflexivity.
    + erewrite remove_task_v1_found; [|assumption|eassumption]. cbn.
      apply length_delete. apply list_find_lookup in Hfind as [Hn _].
      now exists t.
    + rewrite remove_task_v1_missing by assumption. reflexivity.
  - now destruct why.
Qed.

Lemma is_delete_v1_of (r : Request) : is_delete (v1_of r) = is_delete r.
Proof. now destruct r. Qed.

(** X18: a request changes the number of stored tasks only in two cases:
    a create answered 201 adds one, a delete answered 200 removes one.
    Every other request, on either version, leaves the size as it was. *)
Theorem store_size_by_request API_KEY (r : Request) s :
  let '(status, _, s') := reply API_KEY r s in
  List.length s' =
    if status =? 201 then S (List.length s)
    else if is_delete r && (status =? 200) then (List.length s - 1)%nat
    else List.length s.
Proof.
  destruct (checked_key r) as [api_key|] eqn:Hkey.
  - destruct (decide (api_key = API_KEY)) as [->|Hne].
    + rewrite (app_v2_pass API_KEY r s Hkey), <- (is_delete_v1_of r).
      apply store_size_v1, supplied_key_v1_of.
    + rewrite (app_v2_fail API_KEY r api_key s Hkey Hne).
      now destruct (is_delete r).
  - rewrite (app_unchecked API_KEY r s Hkey), <- (is_delete_v1_of r).
    apply store_size_v1, supplied_key_v1_of.
Qed.
